(** * The flow execution engine of FINSY_AGENT

    A shallow embedding of [app/orchestrate/flow_runner.py] (class
    [FlowRunner]) and of the part of [app/orchestrate/skills.py] it calls
    ([OrchestrateSkills.invoke_skill]), together with the properties of the
    engine stated in the specification.

    Flow definitions, inputs, contexts and result records are JSON data that
    the Python code handles as untyped objects, so the embedding keeps them
    untyped as well: one type [value] of JSON-like Python values, with the
    dynamic checks of the interpreter (attribute lookup on a non-dict,
    iteration over a non-iterable, an unhashable dict key, ...) written out
    as raised exceptions.

    What the model takes from Python rather than from the repository:
    - strings are sequences of bytes (UTF-8), floats are finite decimals
      (see [scalar]);
    - the messages of the exceptions are those of CPython 3.8 to 3.12;
    - only exceptions of class [Exception] are modelled (the ones that
      [except Exception] catches);
    - [eval] is given by two parameters of the engine, functions of the
      expression text and of the context in which [_evaluate_condition]
      calls it: [py_eval] is the value that the evaluation returns (or the
      exception it raises) and [py_eval_effect] is the context that it
      leaves, since the expression is evaluated with the context in scope
      and may change it; effects on other objects (the runner, the skill
      invoker, the flow being executed) are not modelled;
      [Expr.eval_fragment] gives the value on the comparison expressions
      that the conditions of the application are written in, whose
      evaluation has no effect;
    - a script handler is a function of the context that returns or raises,
      as the two handlers of the repository are;
    - the remote skill service is a function [session_post] of the
      request.

    The development also covers what surrounds the engine: the [retry]
    decorator and the [CircuitBreaker] class of [app/error_recovery.py]
    (module [Recovery]; the clock, [time.sleep] and the arithmetic of the
    float delays are parameters), and [Config.validate] of [app/config.py]
    with [OrchestrateSkills.connect] (module [Configuration]). *)

From Stdlib Require Import ZArith List String Ascii Bool Lia Arith DecimalString.
Import ListNotations.
Open Scope list_scope.
Open Scope string_scope.
Set Warnings "-register-all".

(** ** Python values *)

(** Hashable values, the only ones that can be dict keys.  Integers are
    unbounded, as in Python.  A float [SFloat m e] stands for the decimal
    [m / 10^e]; this covers the floats that the JSON documents of this
    application carry: zero and the decimals of at most 15 significant
    digits and of magnitude between 1e-4 and 1e16, for which the binary
    rounding of a double is observable neither through [str] nor through
    the comparisons.  NaN, infinities and exponent notation are not
    modelled. *)
Inductive scalar : Type :=
| SNone
| SBool (b : bool)
| SInt (n : Z)
| SFloat (m : Z) (e : nat)
| SStr (s : string).

Inductive value : Type :=
| VS (k : scalar)
| VList (l : list value)
| VDict (d : list (scalar * value)).

(** A Python dict: insertion-ordered, keys unique up to Python's key
    equality. *)
Abbreviation pydict := (list (scalar * value)).

Coercion VS : scalar >-> value.

Definition VNone : value := VS SNone.
Definition VBool (b : bool) : value := VS (SBool b).
Definition VInt (n : Z) : value := VS (SInt n).
Definition VFloat (m : Z) (e : nat) : value := VS (SFloat m e).
Definition VStr (s : string) : value := VS (SStr s).

(** Exceptions (subclasses of [Exception]) carry their class name and the
    message that [str(e)] returns. *)
Record pyexc : Type := PyExc { exc_class : string; exc_msg : string }.

Inductive res (A : Type) : Type :=
| Ok (a : A)
| Raise (e : pyexc).
Arguments Ok {A} a.
Arguments Raise {A} e.

Definition TypeError (msg : string) : pyexc := PyExc "TypeError" msg.
Definition AttributeError (msg : string) : pyexc := PyExc "AttributeError" msg.

(** ** Strings *)

Module Str.

(** [sub in s] on strings. *)
Fixpoint contains (sub s : string) : bool :=
  if prefix sub s then true
  else match s with
       | EmptyString => false
       | String _ s' => contains sub s'
       end.

(** [s.replace(old, new)] for a non-empty [old]: the occurrences are found
    left to right and do not overlap.  [skip] counts the characters of a
    matched occurrence that remain to be dropped. *)
Fixpoint replace_scan (old new : string) (skip : nat) (s : string) : string :=
  match s with
  | EmptyString => EmptyString
  | String c s' =>
      match skip with
      | S k => replace_scan old new k s'
      | O => if prefix old s
             then new ++ replace_scan old new (String.length old - 1) s'
             else String c (replace_scan old new 0 s')
      end
  end.

Fixpoint intersperse_after (new s : string) : string :=
  match s with
  | EmptyString => EmptyString
  | String c s' => String c (new ++ intersperse_after new s')
  end.

Definition replace (old new s : string) : string :=
  match old with
  | EmptyString => new ++ intersperse_after new s
  | String _ _ => replace_scan old new 0 s
  end.

(** [s.split(sep)] for a one-character separator. *)
Fixpoint split_on (sep : ascii) (s : string) : list string :=
  match s with
  | EmptyString => [EmptyString]
  | String c s' =>
      if Ascii.eqb c sep then EmptyString :: split_on sep s'
      else match split_on sep s' with
           | [] => [String c EmptyString]
           | w :: ws => String c w :: ws
           end
  end.

Fixpoint chars (s : string) : list string :=
  match s with
  | EmptyString => []
  | String c s' => String c EmptyString :: chars s'
  end.

Fixpoint join (sep : string) (l : list string) : string :=
  match l with
  | [] => EmptyString
  | [x] => x
  | x :: rest => x ++ sep ++ join sep rest
  end.

Fixpoint existsb_char (p : ascii -> bool) (s : string) : bool :=
  match s with
  | EmptyString => false
  | String c s' => p c || existsb_char p s'
  end.

End Str.

(** ** Built-in operations *)

Definition Z_to_string (n : Z) : string := NilZero.string_of_int (Z.to_int n).

(** The numeric reading of a scalar: [bool] is a subclass of [int]. *)
Definition num_of (k : scalar) : option (Z * nat) :=
  match k with
  | SBool b => Some (if b then 1%Z else 0%Z, 0)
  | SInt n => Some (n, 0)
  | SFloat m e => Some (m, e)
  | _ => None
  end.

Definition num_cmp (x y : Z * nat) : comparison :=
  let '(m1, e1) := x in
  let '(m2, e2) := y in
  (m1 * 10 ^ Z.of_nat e2 ?= m2 * 10 ^ Z.of_nat e1)%Z.

(** Key equality of dicts ([==] on hashable values): numbers by value
    across [bool], [int] and [float]; strings by content. *)
Definition key_eqb (a b : scalar) : bool :=
  match num_of a, num_of b with
  | Some x, Some y => match num_cmp x y with Eq => true | _ => false end
  | None, None =>
      match a, b with
      | SNone, SNone => true
      | SStr s, SStr t => String.eqb s t
      | _, _ => false
      end
  | _, _ => false
  end.

Definition py_type_name (v : value) : string :=
  match v with
  | VS SNone => "NoneType"
  | VS (SBool _) => "bool"
  | VS (SInt _) => "int"
  | VS (SFloat _ _) => "float"
  | VS (SStr _) => "str"
  | VList _ => "list"
  | VDict _ => "dict"
  end.

(** Truth value testing ([if v:], [v or w]). *)
Definition py_truthy (v : value) : bool :=
  match v with
  | VS SNone => false
  | VS (SBool b) => b
  | VS (SInt n) => negb (n =? 0)%Z
  | VS (SFloat m _) => negb (m =? 0)%Z
  | VS (SStr s) => negb (String.eqb s "")
  | VList l => match l with [] => false | _ => true end
  | VDict d => match d with [] => false | _ => true end
  end.

(** [a or b] returns one of its operands. *)
Definition py_or (a b : value) : value := if py_truthy a then a else b.

(** [v == "s"] for a string constant. *)
Definition py_eq_str (v : value) (s : string) : bool :=
  match v with
  | VS (SStr t) => String.eqb t s
  | _ => false
  end.

(** *** dict *)

Fixpoint dict_get (d : pydict) (k : scalar) : option value :=
  match d with
  | [] => None
  | (k', v) :: d' => if key_eqb k' k then Some v else dict_get d' k
  end.

Definition dict_mem (d : pydict) (k : scalar) : bool :=
  match dict_get d k with Some _ => true | None => false end.

(** [d[k] = v]: an existing key keeps its position. *)
Fixpoint dict_set (d : pydict) (k : scalar) (v : value) : pydict :=
  match d with
  | [] => [(k, v)]
  | (k', v') :: d' =>
      if key_eqb k' k then (k', v) :: d' else (k', v') :: dict_set d' k v
  end.

(** [d.get(k, default)] on a dict. *)
Definition dict_get_default (d : pydict) (k : string) (default : value) : value :=
  match dict_get d (SStr k) with Some v => v | None => default end.

(** [v.get(k, default)] on any object: only dicts have the method. *)
Definition py_get (v : value) (k : string) (default : value) : res value :=
  match v with
  | VDict d => Ok (dict_get_default d k default)
  | _ => Raise (AttributeError
                  ("'" ++ py_type_name v ++ "' object has no attribute 'get'"))
  end.

(** The key of [d[v] = ...]: lists and dicts are unhashable. *)
Definition to_key (v : value) : res scalar :=
  match v with
  | VS k => Ok k
  | _ => Raise (TypeError ("unhashable type: '" ++ py_type_name v ++ "'"))
  end.

(** [for x in v]: the elements of a list, the keys of a dict, the
    characters of a string. *)
Definition py_iter (v : value) : res (list value) :=
  match v with
  | VList l => Ok l
  | VDict d => Ok (map (fun kv => VS (fst kv)) d)
  | VS (SStr s) => Ok (map VStr (Str.chars s))
  | _ => Raise (TypeError ("'" ++ py_type_name v ++ "' object is not iterable"))
  end.

(** ["name" in v] for a string constant on the left. *)
Definition py_contains_str (name : string) (v : value) : res bool :=
  match v with
  | VS (SStr s) => Ok (Str.contains name s)
  | VList l => Ok (existsb (fun x => py_eq_str x name) l)
  | VDict d => Ok (dict_mem d (SStr name))
  | _ => Raise (TypeError
                  ("argument of type '" ++ py_type_name v ++ "' is not iterable"))
  end.

(** *** str() and repr() *)

Fixpoint strip_trailing_zeros (s : string) : string :=
  match s with
  | EmptyString => EmptyString
  | String c s' =>
      match strip_trailing_zeros s' with
      | EmptyString => if Ascii.eqb c "0" then EmptyString else String c EmptyString
      | r => String c r
      end
  end.

Fixpoint zeros (n : nat) : string :=
  match n with
  | O => EmptyString
  | S k => String "0" (zeros k)
  end.

(** [str] of the float [m / 10^e], in positional notation: at least one
    digit after the point, no other trailing zero.  This is what Python
    prints for the floats of the model (see [scalar]); below 1e-4 and from
    1e16 on it prints an exponent instead, which is not modelled. *)
Definition float_to_string (m : Z) (e : nat) : string :=
  let a := Z.abs m in
  let p := (10 ^ Z.of_nat e)%Z in
  let digits := Z_to_string (a mod p) in
  let padded := zeros (e - String.length digits) ++ digits in
  let frac := strip_trailing_zeros padded in
  (if (m <? 0)%Z then "-" else "") ++ Z_to_string (a / p) ++ "." ++
  (if String.eqb frac "" then "0" else frac).

Definition squote : ascii := ascii_of_nat 39.
Definition dquote : ascii := ascii_of_nat 34.
Definition backslash : ascii := ascii_of_nat 92.

Definition hex_digit (n : nat) : ascii :=
  if (n <? 10)%nat then ascii_of_nat (48 + n) else ascii_of_nat (87 + n).

(** One character of [repr] of a string delimited by [q]. *)
Definition repr_char (q c : ascii) : string :=
  let n := nat_of_ascii c in
  if Ascii.eqb c backslash then String backslash (String backslash "")
  else if Ascii.eqb c q then String backslash (String q "")
  else if (n =? 10)%nat then String backslash "n"
  else if (n =? 13)%nat then String backslash "r"
  else if (n =? 9)%nat then String backslash "t"
  else if (n <? 32)%nat || (n =? 127)%nat
       then String backslash (String "x" (String (hex_digit (n / 16))
                                            (String (hex_digit (n mod 16)) "")))
  else String c "".

Fixpoint repr_chars (q : ascii) (s : string) : string :=
  match s with
  | EmptyString => EmptyString
  | String c s' => repr_char q c ++ repr_chars q s'
  end.

(** [repr] of a string: single quotes, unless the string has a single
    quote and no double quote. *)
Definition repr_str (s : string) : string :=
  let q := if Str.existsb_char (Ascii.eqb squote) s
              && negb (Str.existsb_char (Ascii.eqb dquote) s)
           then dquote else squote in
  String q (repr_chars q s ++ String q "").

Definition str_scalar (k : scalar) : string :=
  match k with
  | SNone => "None"
  | SBool true => "True"
  | SBool false => "False"
  | SInt n => Z_to_string n
  | SFloat m e => float_to_string m e
  | SStr s => s
  end.

Definition repr_scalar (k : scalar) : string :=
  match k with
  | SStr s => repr_str s
  | _ => str_scalar k
  end.

Fixpoint py_repr (v : value) : string :=
  match v with
  | VS k => repr_scalar k
  | VList l => "[" ++ Str.join ", " (map py_repr l) ++ "]"
  | VDict d =>
      "{" ++ Str.join ", "
               (map (fun kv => match kv with
                               | (k, x) => repr_scalar k ++ ": " ++ py_repr x
                               end) d) ++ "}"
  end.

(** [str(v)]; also the text that an f-string puts for [{v}]. *)
Definition py_str (v : value) : string :=
  match v with
  | VS k => str_scalar k
  | _ => py_repr v
  end.

(** [v.replace(old, new)]: a method of strings only. *)
Definition py_replace (v : value) (old new : string) : res value :=
  match v with
  | VS (SStr s) => Ok (VStr (Str.replace old new s))
  | _ => Raise (AttributeError
                  ("'" ++ py_type_name v ++ "' object has no attribute 'replace'"))
  end.

(** [v > 0]. *)
Definition py_gt_zero (v : value) : res bool :=
  match v with
  | VS k =>
      match num_of k with
      | Some x => Ok (match num_cmp x (0%Z, 0) with Gt => true | _ => false end)
      | None => Raise (TypeError
                         ("'>' not supported between instances of '"
                            ++ py_type_name v ++ "' and 'int'"))
      end
  | _ => Raise (TypeError
                  ("'>' not supported between instances of '"
                     ++ py_type_name v ++ "' and 'int'"))
  end.

(** ** The skill invoker ([app/orchestrate/skills.py]) *)

(** What [requests] gives back for a POST: the status code and the decoded
    JSON body ([response.json()], which raises on a body that is not
    JSON). *)
Record response : Type := {
  status_code : Z;
  json : res value
}.

(** The state of an [OrchestrateSkills] object that [invoke_skill] reads.
    The remote service is the function [session_post], from the endpoint
    and the JSON payload to a response or a raised transport error. *)
Record OrchestrateSkills : Type := {
  _initialized : bool;
  url : string;
  session_post : string -> value -> res response
}.

Definition is_connected (self : OrchestrateSkills) : bool := _initialized self.

(** [OrchestrateSkills.invoke_skill].  The body catches every exception and
    returns [None], so the [@retry] decorator around it returns the result
    of the first attempt. *)
Definition invoke_skill (self : OrchestrateSkills) (skill_name : value)
    (input_data : value) : value :=
  if negb (is_connected self) then
    VDict [(SStr "skill", skill_name);
           (SStr "status", VStr "mock_success");
           (SStr "result", input_data)]
  else
    let endpoint := url self ++ "/v1/skills/" ++ py_str skill_name ++ "/invoke" in
    match session_post self endpoint input_data with
    | Ok response =>
        if (status_code response =? 200)%Z then
          match json response with
          | Ok body => body
          | Raise _ => VNone
          end
        else VNone
    | Raise _ => VNone
    end.

(** ** The execution monad *)

(** The two mutable objects that the step procedures share: the execution
    context and the result log. *)
Record state : Type := mkState {
  context : pydict;
  results : list value
}.

(** A computation on the shared state that returns, or raises an exception
    after the effects it had so far.  [None] only says that the recursion
    budget of the model was too small; see [fuel_for]. *)
Definition M (A : Type) : Type := state -> option (res A * state).

Definition ret {A} (a : A) : M A := fun s => Some (Ok a, s).

Definition bind {A B} (m : M A) (k : A -> M B) : M B :=
  fun s =>
    match m s with
    | Some (Ok a, s') => k a s'
    | Some (Raise e, s') => Some (Raise e, s')
    | None => None
    end.

Definition lift {A} (r : res A) : M A := fun s => Some (r, s).

Definition get_context : M pydict := fun s => Some (Ok (context s), s).

(** [context[k] = v] *)
Definition context_set (k : scalar) (v : value) : M unit :=
  fun s => Some (Ok tt, mkState (dict_set (context s) k v) (results s)).

(** [results.append(r)] *)
Definition results_append (r : value) : M unit :=
  fun s => Some (Ok tt, mkState (context s) (results s ++ [r])%list).

(** [try: body  except Exception as e: handler(e)] *)
Definition try_except {A} (body : M A) (handler : pyexc -> M A) : M A :=
  fun s =>
    match body s with
    | Some (Raise e, s') => handler e s'
    | r => r
    end.

Declare Scope monad_scope.
Delimit Scope monad_scope with M.
Notation "x <- m ;; k" := (bind m (fun x => k))
  (at level 61, m at next level, right associativity) : monad_scope.
Notation "m ;; k" := (bind m (fun _ => k))
  (at level 61, right associativity) : monad_scope.

(** The same sequencing for pure computations that may raise. *)
Definition rbind {A B} (r : res A) (k : A -> res B) : res B :=
  match r with
  | Ok a => k a
  | Raise e => Raise e
  end.

Declare Scope res_scope.
Delimit Scope res_scope with R.
Notation "x <- m ;; k" := (rbind m (fun x => k))
  (at level 61, m at next level, right associativity) : res_scope.

(** ** The flow runner ([app/orchestrate/flow_runner.py]) *)

Definition handler : Type := pydict -> res value.

(** A [FlowRunner] object: the flow registry and the script handlers, in
    registration order. *)
Record FlowRunner : Type := {
  flows : list (string * pydict);
  script_handlers : list (string * handler)
}.

Fixpoint flows_get (fl : list (string * pydict)) (name : string) : option pydict :=
  match fl with
  | [] => None
  | (n, f) :: fl' => if String.eqb n name then Some f else flows_get fl' name
  end.

(** *** Script handlers *)

(** [_script_validate_invoice] *)
Definition _script_validate_invoice (context : pydict) : res value :=
  (let invoice := dict_get_default context "invoice" (VDict []) in
   total <- py_get invoice "total" (VInt 0) ;;
   positive <- py_gt_zero total ;;
   if positive then
     vendor <- py_get invoice "vendor" VNone ;;
     if py_truthy vendor then
       Ok (VDict [(SStr "ok", VBool true); (SStr "message", VStr "Valid")])
     else
       Ok (VDict [(SStr "ok", VBool false);
                  (SStr "message", VStr "Missing required fields")])
   else
     Ok (VDict [(SStr "ok", VBool false);
                (SStr "message", VStr "Missing required fields")]))%R.

(** [_script_auto_approve]; the log line reads [invoice.get('invoice_id')],
    which raises when [invoice] is not a dict. *)
Definition _script_auto_approve (context : pydict) : res value :=
  (let invoice := dict_get_default context "invoice" (VDict []) in
   _ <- py_get invoice "invoice_id" VNone ;;
   Ok (VDict [(SStr "approved", VBool true)]))%R.

(** [FlowRunner.__init__], for a given content of the flow file. *)
Definition new_FlowRunner (loaded : list (string * pydict)) : FlowRunner :=
  {| flows := loaded;
     script_handlers := [("validate_invoice", _script_validate_invoice);
                         ("auto_approve", _script_auto_approve)] |}.

(** *** Variable resolution *)

(** [isinstance(v, (str, int, float, bool))] *)
Definition is_str_or_number (v : value) : bool :=
  match v with
  | VS SNone => false
  | VS _ => true
  | _ => false
  end.

(** The body of the loop over [context.items()]: the replacements that one
    context entry makes in the template string (the variable [value] of the
    source, here [text]). *)
Definition resolve_entry (text : string) (entry : scalar * value) : string :=
  let '(ctx_key, ctx_val) := entry in
  let text :=
    if is_str_or_number ctx_val
    then Str.replace ("{{" ++ str_scalar ctx_key ++ "}}") (py_str ctx_val) text
    else text in
  match ctx_val with
  | VDict sub =>
      fold_left
        (fun text (item : scalar * value) =>
           let '(sub_key, sub_val) := item in
           Str.replace ("{{" ++ str_scalar ctx_key ++ "." ++ str_scalar sub_key ++ "}}")
                       (py_str sub_val) text)
        sub text
  | _ => text
  end.

Definition resolve_value (v : value) (context : pydict) : value :=
  match v with
  | VS (SStr s) =>
      if Str.contains "{{" s && Str.contains "}}" s
      then VStr (fold_left resolve_entry context s)
      else v
  | _ => v
  end.

(** [_resolve_variables].  The keys of [template.items()] are distinct, so
    filling [resolved] key by key gives the entries in the same order. *)
Definition _resolve_variables (template : value) (context : pydict) : res pydict :=
  match template with
  | VDict t => Ok (map (fun kv => (fst kv, resolve_value (snd kv) context)) t)
  | _ => Raise (AttributeError
                  ("'" ++ py_type_name template ++ "' object has no attribute 'items'"))
  end.

(** *** Condition evaluation *)

(** The helper [get_val] of [_evaluate_condition]: follow a dotted path
    through nested dicts. *)
Fixpoint get_val_loop (parts : list string) (val : value) : value :=
  match parts with
  | [] => val
  | p :: parts' =>
      match val with
      | VDict d => get_val_loop parts' (dict_get_default d p VNone)
      | _ => VNone
      end
  end.

Definition get_val (context : pydict) (path : string) : value :=
  get_val_loop (Str.split_on "." path) (VDict context).

(** [try: body  except Exception: return default] for a pure body. *)
Definition try_default {A} (body : res A) (default : A) : res A :=
  match body with
  | Ok a => Ok a
  | Raise _ => Ok default
  end.

Section Engine.

(** Python's built-in [eval], applied to the rewritten condition text in the
    scope of [_evaluate_condition], where the context is visible.  It is a
    parameter of the engine: it returns the value of the expression or
    raises (a syntax error, an undefined name, a type error...). *)
Variable py_eval : string -> pydict -> res value.

(** The context after this evaluation: an expression such as
    [context.update(k=1)] or [context.pop("k")] changes the dict that the
    caller shares with [_evaluate_condition].  The changes made before an
    exception is raised stay. *)
Variable py_eval_effect : string -> pydict -> pydict.

(** The global [orchestrate_skills] object. *)
Variable orchestrate_skills : OrchestrateSkills.

Variable self : FlowRunner.

(** The condition text handed to [eval]: the statements of
    [_evaluate_condition] before [return eval(eval_str)]. *)
Definition rewrite_condition (condition : value) (context : pydict) : res value :=
  (let eval_str := condition in
   has_score <- py_contains_str "risk.score" eval_str ;;
   eval_str <-
     (if has_score : bool then
        let score := py_or (get_val context "risk.score")
                       (py_or (get_val context "risk.result.score") (VFloat 5 1)) in
        py_replace eval_str "risk.score" (py_str score)
      else Ok eval_str) ;;
   has_ok <- py_contains_str "validation.ok" eval_str ;;
   eval_str <-
     (if has_ok : bool then
        let val_ok := get_val context "validation.ok" in
        eval_str <- py_replace eval_str "validation.ok" (py_str val_ok) ;;
        eval_str <- py_replace eval_str "true" "True" ;;
        py_replace eval_str "false" "False"
      else Ok eval_str) ;;
   eval_str <- py_replace eval_str "&&" " and " ;;
   py_replace eval_str "||" " or ")%R.

(** [_evaluate_condition]: the value it returns. *)
Definition _evaluate_condition (condition : value) (context : pydict) : res value :=
  try_default
    (eval_str <- rewrite_condition condition context ;;
     match eval_str with
     | VS (SStr text) => py_eval text context
     | _ => Raise (TypeError "eval() arg 1 must be a string, bytes or code object")
     end)%R
    (VBool false).

(** [_evaluate_condition]: the context it leaves.  The statements before
    [eval] only read the context; when one of them raises, [eval] is not
    reached. *)
Definition _evaluate_condition_effect (condition : value) (context : pydict) : pydict :=
  match rewrite_condition condition context with
  | Ok (VS (SStr text)) => py_eval_effect text context
  | _ => context
  end.

(** The call [self._evaluate_condition(condition, context)] on the shared
    context. *)
Definition call_evaluate_condition (condition : value) : M value :=
  fun s =>
    Some (_evaluate_condition condition (context s),
          mkState (_evaluate_condition_effect condition (context s)) (results s)).

(** *** Steps *)

Definition record_success (id result : value) : value :=
  VDict [(SStr "step", id); (SStr "status", VStr "success"); (SStr "output", result)].

Definition record_failed (id : value) : value :=
  VDict [(SStr "step", id); (SStr "status", VStr "failed")].

Definition record_failed_error (id : value) (e : pyexc) : value :=
  VDict [(SStr "step", id); (SStr "status", VStr "failed");
         (SStr "error", VStr (exc_msg e))].

Definition record_skipped (id : value) : value :=
  VDict [(SStr "step", id); (SStr "status", VStr "skipped");
         (SStr "reason", VStr "no_handler")].

Definition record_paused (id : value) : value :=
  VDict [(SStr "step", id); (SStr "status", VStr "paused");
         (SStr "reason", VStr "wait_for_event")].

(** [step.get("output", step.get("id"))] *)
Definition output_var (step : value) : res value :=
  (id <- py_get step "id" VNone ;; py_get step "output" id)%R.

(** [_execute_skill_step] *)
Definition _execute_skill_step (step : value) : M unit :=
  (skill_name <- lift (py_get step "skill" VNone) ;;
   skill_input <- lift (py_get step "input" (VDict [])) ;;
   context <- get_context ;;
   resolved_input <- lift (_resolve_variables skill_input context) ;;
   let result := invoke_skill orchestrate_skills skill_name (VDict resolved_input) in
   output_var <- lift (output_var step) ;;
   id <- lift (py_get step "id" VNone) ;;
   if py_truthy result then
     key <- lift (to_key output_var) ;;
     context_set key result ;;
     results_append (record_success id result)
   else
     results_append (record_failed id))%M.

(** The loop of [_execute_script_step] over [self.script_handlers.items()]:
    the first handler whose name is [in] the script content. *)
Fixpoint find_handler (handlers : list (string * handler)) (script_content : value)
  : res (option handler) :=
  match handlers with
  | [] => Ok None
  | (name, method) :: handlers' =>
      (found <- py_contains_str name script_content ;;
       if found : bool then Ok (Some method)
       else find_handler handlers' script_content)%R
  end.

(** [_execute_script_step] *)
Definition _execute_script_step (step : value) : M unit :=
  (script_content <- lift (py_get step "script" (VStr "")) ;;
   handler <- lift (find_handler (script_handlers self) script_content) ;;
   id <- lift (py_get step "id" VNone) ;;
   match handler with
   | Some handler =>
       try_except
         (context <- get_context ;;
          result <- lift (handler context) ;;
          output_var <- lift (output_var step) ;;
          key <- lift (to_key output_var) ;;
          context_set key result ;;
          results_append (record_success id result))
         (fun e => results_append (record_failed_error id e))
   | None => results_append (record_skipped id)
   end)%M.

(** The loop of [_execute_switch_step] over the cases; [execute_steps] is
    the recursive call of [_execute_steps] on the actions of the matched
    case.  A case matches when its condition is ["else"], in which case
    nothing is evaluated, or evaluates to a true value. *)
Fixpoint switch_cases (execute_steps : value -> M unit) (cases : list value) : M unit :=
  match cases with
  | [] => ret tt
  | case :: cases' =>
      (condition <- lift (py_get case "condition" VNone) ;;
       cond_value <- (if py_eq_str condition "else" then ret (VBool true)
                      else call_evaluate_condition condition) ;;
       if py_truthy cond_value then
         actions <- lift (py_get case "actions" (VList [])) ;;
         execute_steps actions
       else switch_cases execute_steps cases')%M
  end.

(** [_execute_switch_step] *)
Definition _execute_switch_step (execute_steps : value -> M unit) (step : value) : M unit :=
  (cases <- lift (py_get step "cases" (VList [])) ;;
   cases <- lift (py_iter cases) ;;
   switch_cases execute_steps cases)%M.

(** The loop of [_execute_steps]; [break] ends it. *)
Fixpoint steps_loop (execute_steps : value -> M unit) (steps : list value) : M unit :=
  match steps with
  | [] => ret tt
  | step :: steps' =>
      (step_id <- lift (py_get step "id" VNone) ;;
       step_type <- lift (py_get step "type" VNone) ;;
       if py_eq_str step_type "skill" then
         _execute_skill_step step ;; steps_loop execute_steps steps'
       else if py_eq_str step_type "script" then
         _execute_script_step step ;; steps_loop execute_steps steps'
       else if py_eq_str step_type "switch" then
         _execute_switch_step execute_steps step ;; steps_loop execute_steps steps'
       else if py_eq_str step_type "wait_for_event" then
         results_append (record_paused step_id)
       else steps_loop execute_steps steps')%M
  end.

(** [_execute_steps].  The recursion goes through the actions of a switch
    case, which lie strictly deeper in the flow document; [fuel] bounds the
    nesting of the calls. *)
Fixpoint _execute_steps (fuel : nat) (steps : value) : M unit :=
  match fuel with
  | O => fun _ => None
  | S fuel' =>
      (steps <- lift (py_iter steps) ;;
       steps_loop (_execute_steps fuel') steps)%M
  end.

(** The nesting depth of a value; more fuel than this is always enough
    ([_execute_steps_fuel]). *)
Fixpoint vdepth (v : value) : nat :=
  match v with
  | VS _ => 0
  | VList l => S (list_max (map vdepth l))
  | VDict d => S (list_max (map (fun kv => match kv with (_, x) => vdepth x end) d))
  end.

Definition fuel_for (steps : value) : nat := S (vdepth steps).

Definition outcome (flow_name status : string) (s : state) : value :=
  VDict [(SStr "flow", VStr flow_name);
         (SStr "status", VStr status);
         (SStr "results", VList (results s));
         (SStr "final_context", VDict (context s))].

(** [execute_flow] *)
Definition execute_flow (flow_name : string) (input_data : pydict) : option value :=
  match flows_get (flows self) flow_name with
  | None =>
      Some (VDict [(SStr "error", VStr ("Flow " ++ flow_name ++ " not found"));
                   (SStr "status", VStr "failed")])
  | Some flow =>
      let steps := dict_get_default flow "steps" (VList []) in
      (* context = input_data.copy(); results = [] *)
      match _execute_steps (fuel_for steps) steps (mkState input_data []) with
      | Some (Ok _, s) => Some (outcome flow_name "completed" s)
      | Some (Raise e, s) =>
          Some (outcome flow_name "failed"
                  (mkState (context s)
                           (results s ++ [VDict [(SStr "error", VStr (exc_msg e))]])%list))
      | None => None
      end
  end.

End Engine.

(** ** The condition language

    [eval] is modelled exactly on the expressions that the conditions of
    the application are made of: comparisons of number and boolean
    literals, joined by [and], [or] and [not].  [Expr.eval_fragment] gives
    Python's result for such a text and [None] for any other text, about
    which it says nothing. *)

Module Expr.

Inductive cmp_op : Type := Lt | Gt | Le | Ge | EqOp | NeOp.

Inductive token : Type :=
| TLit (k : scalar)
| TAnd
| TOr
| TNot
| TCmp (op : cmp_op).

Definition is_digit (c : ascii) : bool :=
  let n := nat_of_ascii c in (48 <=? n)%nat && (n <=? 57)%nat.

Definition is_word_char (c : ascii) : bool :=
  let n := nat_of_ascii c in
  is_digit c || ((65 <=? n)%nat && (n <=? 90)%nat)
  || ((97 <=? n)%nat && (n <=? 122)%nat) || (n =? 95)%nat || (n =? 46)%nat.

Fixpoint all_digits (s : string) : bool :=
  match s with
  | EmptyString => true
  | String c s' => is_digit c && all_digits s'
  end.

Fixpoint digits_value (acc : Z) (s : string) : Z :=
  match s with
  | EmptyString => acc
  | String c s' => digits_value (10 * acc + Z.of_nat (nat_of_ascii c - 48)) s'
  end.

(** No leading zero in the integer part, except for the number zero. *)
Definition plain_int_part (s : string) : bool :=
  match s with
  | String "0" (String _ _) => false
  | _ => all_digits s
  end.

(** A decimal literal: [digits], or [digits.digits] with a digit on at
    least one side of the point and at most 15 digits in all, so that the
    double it denotes compares as the decimal does. *)
Definition number_literal (w : string) : option scalar :=
  match Str.split_on "." w with
  | [ip] =>
      if plain_int_part ip && negb (String.eqb ip "")
      then Some (SInt (digits_value 0 ip)) else None
  | [ip; fp] =>
      if plain_int_part ip && all_digits fp && negb (String.eqb (ip ++ fp) "")
         && (String.length (ip ++ fp) <=? 15)%nat
      then Some (SFloat (digits_value 0 (ip ++ fp)) (String.length fp)) else None
  | _ => None
  end.

Definition word_token (w : string) : option token :=
  if String.eqb w "and" then Some TAnd
  else if String.eqb w "or" then Some TOr
  else if String.eqb w "not" then Some TNot
  else if String.eqb w "True" then Some (TLit (SBool true))
  else if String.eqb w "False" then Some (TLit (SBool false))
  else if String.eqb w "None" then Some (TLit SNone)
  else option_map TLit (number_literal w).

(** The word read so far, closed at a space, an operator or the end. *)
Definition flush (word : string) (rest : option (list token)) : option (list token) :=
  match word with
  | EmptyString => rest
  | _ => match word_token word, rest with
         | Some t, Some ts => Some (t :: ts)
         | _, _ => None
         end
  end.

Fixpoint tokenize (word : string) (s : string) : option (list token) :=
  match s with
  | EmptyString => flush word (Some [])
  | String c s' =>
      if Ascii.eqb c " " then flush word (tokenize "" s')
      else if is_word_char c then tokenize (word ++ String c "") s'
      else
        let followed_by_eq :=
          match s' with String "=" _ => true | _ => false end in
        let after_eq :=
          match s' with String "=" s'' => tokenize "" s'' | _ => None end in
        let two (op : cmp_op) := flush word (option_map (cons (TCmp op)) after_eq) in
        let one (op : cmp_op) := flush word (option_map (cons (TCmp op)) (tokenize "" s')) in
        if Ascii.eqb c "<" then (if followed_by_eq then two Le else one Lt)
        else if Ascii.eqb c ">" then (if followed_by_eq then two Ge else one Gt)
        else if Ascii.eqb c "=" then (if followed_by_eq then two EqOp else None)
        else if Ascii.eqb c "!" then (if followed_by_eq then two NeOp else None)
        else None
  end.

(** The syntax: [or] of [and] of [not]* of a comparison chain. *)
Record chain : Type := { first : scalar; others : list (cmp_op * scalar) }.
Record negation : Type := { nots : nat; body : chain }.
Definition conjunction : Type := list negation.
Definition disjunction : Type := list conjunction.

(** The token list cut at each occurrence of [sep]. *)
Fixpoint split_tokens (is_sep : token -> bool) (ts : list token) : list (list token) :=
  match ts with
  | [] => [[]]
  | t :: ts' =>
      if is_sep t then [] :: split_tokens is_sep ts'
      else match split_tokens is_sep ts' with
           | [] => [[t]]
           | g :: gs => (t :: g) :: gs
           end
  end.

Fixpoint parse_others (ts : list token) : option (list (cmp_op * scalar)) :=
  match ts with
  | [] => Some []
  | TCmp op :: TLit k :: ts' => option_map (cons (op, k)) (parse_others ts')
  | _ => None
  end.

Definition parse_chain (ts : list token) : option chain :=
  match ts with
  | TLit k :: ts' => option_map (Build_chain k) (parse_others ts')
  | _ => None
  end.

Fixpoint parse_negation (ts : list token) : option negation :=
  match ts with
  | TNot :: ts' =>
      option_map (fun n => Build_negation (S (nots n)) (body n)) (parse_negation ts')
  | _ => option_map (Build_negation 0) (parse_chain ts)
  end.

Fixpoint parse_all {A B} (f : A -> option B) (l : list A) : option (list B) :=
  match l with
  | [] => Some []
  | x :: l' =>
      match f x, parse_all f l' with
      | Some y, Some ys => Some (y :: ys)
      | _, _ => None
      end
  end.

Definition is_and (t : token) : bool := match t with TAnd => true | _ => false end.
Definition is_or (t : token) : bool := match t with TOr => true | _ => false end.

Definition parse (ts : list token) : option disjunction :=
  parse_all (fun conj => parse_all parse_negation (split_tokens is_and conj))
            (split_tokens is_or ts).

Definition op_symbol (op : cmp_op) : string :=
  match op with
  | Lt => "<" | Gt => ">" | Le => "<=" | Ge => ">=" | EqOp => "==" | NeOp => "!="
  end.

(** One comparison.  Numbers compare by value; [None] equals only itself
    and is not ordered. *)
Definition compare (a : scalar) (op : cmp_op) (b : scalar) : res bool :=
  match num_of a, num_of b with
  | Some x, Some y =>
      let c := num_cmp x y in
      Ok (match op, c with
          | Lt, Datatypes.Lt => true
          | Gt, Datatypes.Gt => true
          | Le, (Datatypes.Lt | Datatypes.Eq) => true
          | Ge, (Datatypes.Gt | Datatypes.Eq) => true
          | EqOp, Datatypes.Eq => true
          | NeOp, (Datatypes.Lt | Datatypes.Gt) => true
          | _, _ => false
          end)
  | _, _ =>
      match op with
      | EqOp => Ok (key_eqb a b)
      | NeOp => Ok (negb (key_eqb a b))
      | _ => Raise (TypeError ("'" ++ op_symbol op
                                 ++ "' not supported between instances of '"
                                 ++ py_type_name (VS a) ++ "' and '"
                                 ++ py_type_name (VS b) ++ "'"))
      end
  end.

(** [a op1 b op2 c ...] is [a op1 b and b op2 c and ...]. *)
Fixpoint eval_others (a : scalar) (rest : list (cmp_op * scalar)) : res scalar :=
  match rest with
  | [] => Ok a
  | [(op, b)] => (r <- compare a op b ;; Ok (SBool r))%R
  | (op, b) :: rest' =>
      (r <- compare a op b ;;
       if r : bool then eval_others b rest' else Ok (SBool false))%R
  end.

Definition eval_chain (c : chain) : res scalar := eval_others (first c) (others c).

Definition eval_negation (n : negation) : res scalar :=
  (v <- eval_chain (body n) ;;
   match nots n with
   | O => Ok v
   | S _ => Ok (SBool (if Nat.even (nots n) then py_truthy (VS v)
                        else negb (py_truthy (VS v))))
   end)%R.

(** [x and y and ...]: the first false operand, else the last one. *)
Fixpoint eval_conjunction (c : conjunction) : res scalar :=
  match c with
  | [] => Ok (SBool true)
  | [n] => eval_negation n
  | n :: c' =>
      (v <- eval_negation n ;;
       if py_truthy (VS v) then eval_conjunction c' else Ok v)%R
  end.

(** [x or y or ...]: the first true operand, else the last one. *)
Fixpoint eval_disjunction (d : disjunction) : res scalar :=
  match d with
  | [] => Ok (SBool false)
  | [c] => eval_conjunction c
  | c :: d' =>
      (v <- eval_conjunction c ;;
       if py_truthy (VS v) then Ok v else eval_disjunction d')%R
  end.

Definition eval_fragment (text : string) : option (res value) :=
  match tokenize "" text with
  | Some ts =>
      match parse ts with
      | Some d => Some (v <- eval_disjunction d ;; Ok (VS v))%R
      | None => None
      end
  | None => None
  end.

(** An evaluator agrees with Python on the fragment. *)
Definition extends_fragment (py_eval : string -> pydict -> res value) : Prop :=
  forall text context r, eval_fragment text = Some r -> py_eval text context = r.

(** The evaluator that knows the fragment only and rejects every other
    text. *)
Definition eval_restricted (text : string) (context : pydict) : res value :=
  match eval_fragment text with
  | Some r => r
  | None => Raise (PyExc "SyntaxError" "invalid syntax")
  end.

(** The expressions of the fragment, and a text that is rejected, leave
    the context as it is. *)
Definition no_effect (text : string) (context : pydict) : pydict := context.

End Expr.

(** ** What the properties are stated with *)

(** The type of a step, as [_execute_steps] reads it. *)
Definition step_type (step : pydict) : value := dict_get_default step "type" VNone.

Definition step_id (step : pydict) : value := dict_get_default step "id" VNone.

(** A step of none of the four kinds that the engine knows. *)
Definition unrecognized (step : pydict) : Prop :=
  py_eq_str (step_type step) "skill" = false
  /\ py_eq_str (step_type step) "script" = false
  /\ py_eq_str (step_type step) "switch" = false
  /\ py_eq_str (step_type step) "wait_for_event" = false.

(** The test that [_execute_switch_step] makes on a case: its condition is
    the string ["else"], or it evaluates to a true value. *)
Definition case_matches (py_eval : string -> pydict -> res value)
    (case : pydict) (context : pydict) : bool :=
  let condition := dict_get_default case "condition" VNone in
  py_eq_str condition "else"
  || match _evaluate_condition py_eval condition context with
     | Ok v => py_truthy v
     | Raise _ => false
     end.

(** The context after the test that [_execute_switch_step] makes on a
    case: nothing is evaluated for ["else"]. *)
Definition case_effect (py_eval_effect : string -> pydict -> pydict)
    (case : pydict) (context : pydict) : pydict :=
  let condition := dict_get_default case "condition" VNone in
  if py_eq_str condition "else" then context
  else _evaluate_condition_effect py_eval_effect condition context.

(** The cases [before] are tested one after the other, each in the context
    that the tests before it left, and none matches: the context after the
    last test, if so. *)
Fixpoint skips (py_eval : string -> pydict -> res value)
    (py_eval_effect : string -> pydict -> pydict)
    (before : list pydict) (context : pydict) : option pydict :=
  match before with
  | [] => Some context
  | case :: before' =>
      if case_matches py_eval case context then None
      else skips py_eval py_eval_effect before' (case_effect py_eval_effect case context)
  end.

(** The evaluation of an expression leaves the context as it is. *)
Definition effect_free (py_eval_effect : string -> pydict -> pydict) : Prop :=
  forall text context, py_eval_effect text context = context.

(** The evaluation of an expression neither adds nor removes a key of the
    context. *)
Definition keeps_keys (py_eval_effect : string -> pydict -> pydict) : Prop :=
  forall text context k,
    dict_mem (py_eval_effect text context) k = dict_mem context k.

Definition is_bool (v : value) : bool :=
  match v with
  | VS (SBool _) => true
  | _ => false
  end.

(** A computation that returns or raises from every state. *)
Definition total {A} (m : M A) : Prop := forall s, m s <> None.

(** A field of an outcome. *)
Definition field (out : value) (k : string) : option value :=
  match out with
  | VDict d => dict_get d (SStr k)
  | _ => None
  end.

(** The values that iterating over [v] yields; none when [v] cannot be
    iterated over. *)
Definition steps_of (v : value) : list value :=
  match py_iter v with
  | Ok l => l
  | Raise _ => []
  end.

(** A step at which [_execute_steps] leaves its loop. *)
Definition is_wait (step : value) : bool :=
  match step with
  | VDict d => py_eq_str (step_type d) "wait_for_event"
  | _ => false
  end.

(** A step of a kind that appends a record when it is run. *)
Definition appends_record (step : pydict) : bool :=
  py_eq_str (step_type step) "skill"
  || py_eq_str (step_type step) "script"
  || py_eq_str (step_type step) "wait_for_event".

(** The declared order.  [selects steps run] says that the steps [run] are
    picked from the step sequence [steps] in the order of their
    declaration: steps are passed over or taken one after the other, and
    for a switch step the steps taken from the actions of one of its
    cases come in its place. *)
Inductive selects : list value -> list pydict -> Prop :=
| selects_nil : selects [] []
| selects_skip (step : value) (rest : list value) (run : list pydict) :
    selects rest run -> selects (step :: rest) run
| selects_leaf (step : pydict) (rest : list value) (run : list pydict) :
    appends_record step = true ->
    selects rest run -> selects (VDict step :: rest) (step :: run)
| selects_switch (step case : pydict) (rest : list value) (run1 run2 : list pydict) :
    py_eq_str (step_type step) "switch" = true ->
    In (VDict case) (steps_of (dict_get_default step "cases" (VList []))) ->
    selects (steps_of (dict_get_default case "actions" (VList []))) run1 ->
    selects rest run2 ->
    selects (VDict step :: rest) (run1 ++ run2)%list.

Definition is_success (r : value) : bool :=
  match field r "status" with
  | Some status => py_eq_str status "success"
  | None => false
  end.

(** The key under which a step stores its output, when it is hashable. *)
Definition output_key (step : pydict) : option scalar :=
  match dict_get_default step "output" (step_id step) with
  | VS k => Some k
  | _ => None
  end.

(** The output keys of the steps whose record says [success]; a trace
    pairs each step that was run with the record it appended. *)
Definition success_keys (trace : list (pydict * value)) : list scalar :=
  flat_map (fun p => if is_success (snd p)
                     then match output_key (fst p) with
                          | Some k => [k]
                          | None => []
                          end
                     else []) trace.

(** The record [r] is the one of the step [step]. *)
Definition record_of (step : pydict) (r : value) : Prop :=
  field r "step" = Some (step_id step)
  /\ exists status,
       field r "status" = Some (VStr status)
       /\ In status ["success"; "failed"; "skipped"; "paused"].

(** The state [s'] is [s] after the steps of [trace] have been run: their
    records were appended in order, and, when the conditions evaluated on
    the way keep the keys of the context ([quiet]), the keys of the context
    are those it had and the output keys of the successful steps. *)
Definition extends (quiet : Prop) (trace : list (pydict * value)) (s s' : state) : Prop :=
  results s' = (results s ++ map snd trace)%list
  /\ (quiet ->
      forall k, dict_mem (context s') k
                = dict_mem (context s) k
                  || existsb (fun k' => key_eqb k' k) (success_keys trace))
  /\ Forall (fun p => record_of (fst p) (snd p)) trace.

(** What running [m] appends and writes is accounted for by steps taken
    from [steps] in declared order. *)
Definition traced (quiet : Prop) (steps : list value) (m : M unit) : Prop :=
  forall s r s', m s = Some (r, s') ->
    exists trace, selects steps (map fst trace) /\ extends quiet trace s s'.

(** A template string seen as the spec describes it: text with
    placeholders [{{name}}] in it. *)
Inductive segment : Type :=
| Text (s : string)
| Hole (name : string).

Definition render_segment (seg : segment) : string :=
  match seg with
  | Text s => s
  | Hole name => "{{" ++ name ++ "}}"
  end.

Fixpoint render (segs : list segment) : string :=
  match segs with
  | [] => ""
  | seg :: segs' => render_segment seg ++ render segs'
  end.

(** The placeholders that a context defines, with the text that stands
    for each: [key] for the entries that are strings, numbers or booleans,
    [key.subfield] for the fields of the entries that are maps. *)
Definition placeholders_of (entry : scalar * value) : list (string * string) :=
  let '(ctx_key, ctx_val) := entry in
  (if is_str_or_number ctx_val then [(str_scalar ctx_key, py_str ctx_val)] else [])
  ++ match ctx_val with
     | VDict sub =>
         map (fun item : scalar * value =>
                (str_scalar ctx_key ++ "." ++ str_scalar (fst item), py_str (snd item)))
             sub
     | _ => []
     end.

Definition placeholders (context : pydict) : list (string * string) :=
  flat_map placeholders_of context.

Fixpoint lookup (name : string) (l : list (string * string)) : option string :=
  match l with
  | [] => None
  | (n, text) :: l' => if String.eqb n name then Some text else lookup name l'
  end.

(** Following the spec's words: every placeholder of the template is
    replaced by the textual form of the context value it names, and is left
    as it is when the context has no such value. *)
Definition fill (context : pydict) (seg : segment) : segment :=
  match seg with
  | Text s => Text s
  | Hole name =>
      match lookup name (placeholders context) with
      | Some text => Text text
      | None => Hole name
      end
  end.

Definition resolve_spec (segs : list segment) (context : pydict) : string :=
  render (map (fill context) segs).

Definition is_brace (c : ascii) : bool := Ascii.eqb c "{" || Ascii.eqb c "}".

Definition brace_free (s : string) : bool := negb (Str.existsb_char is_brace s).

(** A template in which braces occur in the delimiters of the
    placeholders only. *)
Definition plain_template (segs : list segment) : Prop :=
  Forall (fun seg => match seg with
                     | Text s => brace_free s = true
                     | Hole name => brace_free name = true
                     end) segs.

(** A placeholder definition that raises no question on the template
    [segs]: its name has no brace and, when the template uses it, neither
    has its text. *)
Definition plain_for (segs : list segment) (nt : string * string) : Prop :=
  brace_free (fst nt) = true
  /\ (In (Hole (fst nt)) segs -> brace_free (snd nt) = true).

Definition plain_context (segs : list segment) (context : pydict) : Prop :=
  Forall (plain_for segs) (placeholders context).

(** One replacement, on the segments. *)
Definition fill_one (name new : string) (seg : segment) : segment :=
  match seg with
  | Text s => Text s
  | Hole n => if String.eqb name n then Text new else Hole n
  end.

(** The replacement that the resolver makes for one placeholder. *)
Definition replace_placeholder (text : string) (p : string * string) : string :=
  Str.replace ("{{" ++ fst p ++ "}}") (snd p) text.

Definition fill_with (l : list (string * string)) (seg : segment) : segment :=
  match seg with
  | Text s => Text s
  | Hole name =>
      match lookup name l with
      | Some text => Text text
      | None => Hole name
      end
  end.

Definition has_hole (segs : list segment) : bool :=
  existsb (fun seg => match seg with Hole _ => true | Text _ => false end) segs.

(** ** The tests of the repository ([tests/test_flow_runner.py]) *)

Module Tests.

Definition no_skills : OrchestrateSkills :=
  {| _initialized := false; url := ""; session_post := fun _ _ => Raise (PyExc "ConnectionError" "") |}.

Definition TestFlow : pydict :=
  [(SStr "name", VStr "TestFlow");
   (SStr "steps", VList [
      VDict [(SStr "id", VStr "step1"); (SStr "type", VStr "script");
             (SStr "script", VStr "validate_invoice"); (SStr "output", VStr "validation")];
      VDict [(SStr "id", VStr "step2"); (SStr "type", VStr "switch");
             (SStr "cases", VList [
                VDict [(SStr "condition", VStr "validation.ok == true");
                       (SStr "actions", VList [
                          VDict [(SStr "type", VStr "script");
                                 (SStr "script", VStr "auto_approve")]])]])]])].

Definition runner : FlowRunner := new_FlowRunner [("TestFlow", TestFlow)].

Definition input_data : pydict :=
  [(SStr "invoice", VDict [(SStr "total", VInt 100); (SStr "vendor", VStr "Acme")])].

Definition low_risk_valid : pydict :=
  [(SStr "risk", VDict [(SStr "score", VFloat 1 1)]);
   (SStr "validation", VDict [(SStr "ok", VBool true)])].

Definition high_risk_valid : pydict :=
  [(SStr "risk", VDict [(SStr "score", VFloat 8 1)]);
   (SStr "validation", VDict [(SStr "ok", VBool true)])].

Definition zero_risk : pydict := [(SStr "risk", VDict [(SStr "score", VInt 0)])].

Definition chained_context : pydict :=
  [(SStr "a", VStr "{{b}}"); (SStr "b", VStr "X")].

Definition chained_context_reversed : pydict :=
  [(SStr "b", VStr "X"); (SStr "a", VStr "{{b}}")].

Definition s0 : state := mkState input_data [].

Definition email_step : pydict := [(SStr "id", VStr "notify"); (SStr "type", VStr "email")].

Definition wait_step : pydict :=
  [(SStr "id", VStr "hold"); (SStr "type", VStr "wait_for_event");
   (SStr "event", VStr "approval")].

Definition script_step : pydict :=
  [(SStr "id", VStr "step1"); (SStr "type", VStr "script");
   (SStr "script", VStr "validate_invoice"); (SStr "output", VStr "validation")].

Definition skill_step : pydict :=
  [(SStr "id", VStr "extract"); (SStr "type", VStr "skill");
   (SStr "skill", VStr "extract_invoice");
   (SStr "input", VDict [(SStr "total", VStr "{{invoice.total}}")])].

Definition else_case : pydict :=
  [(SStr "condition", VStr "else"); (SStr "actions", VList [VDict script_step])].

Definition false_case : pydict :=
  [(SStr "condition", VStr "1 > 2"); (SStr "actions", VList [VDict wait_step])].

Definition switch_step : pydict :=
  [(SStr "id", VStr "route"); (SStr "type", VStr "switch");
   (SStr "cases", VList [VDict false_case; VDict else_case])].

Definition greeting_template : pydict :=
  [(SStr "greeting", VStr (render [Text "Hello "; Hole "name"]));
   (SStr "ref", VStr (render [Text "ID: "; Hole "data.id"]))].

Definition greeting_context : pydict :=
  [(SStr "name", VStr "World"); (SStr "data", VDict [(SStr "id", VInt 123)])].

End Tests.


(** ** Retries and circuit breakers ([app/error_recovery.py]) *)

Module Recovery.

Section Retry.

Context {A : Type}.

(** The delays are floats; their product is a parameter, and so is
    [time.sleep], which returns after the delay or raises (on a negative
    delay, or one that is too large). *)
Variable delay_t : Type.
Variable mul : delay_t -> delay_t -> delay_t.
Variable time_sleep : delay_t -> res unit.

(** What a call of the wrapper did: its result, the number of calls of
    the wrapped function and the delays it slept, in order. *)
Record retry_run : Type := {
  retry_result : res A;
  retry_calls : nat;
  retry_sleeps : list delay_t
}.

(** [raise Exception(f"Function {func.__name__} failed after {max_attempts}
    attempts")] *)
Definition retry_exhausted (func_name : string) (max_attempts : Z) : pyexc :=
  PyExc "Exception"
        ("Function " ++ func_name ++ " failed after "
           ++ Z_to_string max_attempts ++ " attempts").

(** The [while attempt < max_attempts] loop of the wrapper.  [func k] is
    what the wrapped function does when it is called for the [k]-th time
    (the calls are numbered from 0); [attempt] counts the failed calls, as
    in the source, and [remaining] is [max_attempts - attempt], which the
    loop test compares with 0. *)
Fixpoint retry_loop (func : nat -> res A) (func_name : string) (max_attempts : Z)
    (backoff : delay_t) (remaining : nat) (attempt : nat)
    (current_delay : delay_t) (slept : list delay_t) : retry_run :=
  match remaining with
  | O =>
      {| retry_result := Raise (retry_exhausted func_name max_attempts);
         retry_calls := attempt; retry_sleeps := slept |}
  | S remaining' =>
      match func attempt with
      | Ok result =>
          {| retry_result := Ok result;
             retry_calls := S attempt; retry_sleeps := slept |}
      | Raise e =>
          (* attempt += 1; if attempt >= max_attempts: raise *)
          match remaining' with
          | O => {| retry_result := Raise e;
                    retry_calls := S attempt; retry_sleeps := slept |}
          | S _ =>
              (* time.sleep(current_delay); current_delay *= backoff *)
              match time_sleep current_delay with
              | Ok _ =>
                  retry_loop func func_name max_attempts backoff remaining' (S attempt)
                             (mul current_delay backoff) (slept ++ [current_delay])%list
              | Raise e' =>
                  {| retry_result := Raise e';
                     retry_calls := S attempt; retry_sleeps := slept |}
              end
          end
      end
  end.

(** [retry(max_attempts, delay, backoff)(func)], called once. *)
Definition retry (max_attempts : Z) (delay backoff : delay_t)
    (func_name : string) (func : nat -> res A) : retry_run :=
  retry_loop func func_name max_attempts backoff (Z.to_nat max_attempts) 0 delay [].

(** [delay], [delay * backoff], [delay * backoff * backoff], ...: the
    first [n] of them. *)
Fixpoint backoff_delays (delay backoff : delay_t) (n : nat) : list delay_t :=
  match n with
  | O => []
  | S n' => delay :: backoff_delays (mul delay backoff) backoff n'
  end.

(** [time.sleep] returns on each of these delays. *)
Definition sleeps_well (delays : list delay_t) : Prop :=
  Forall (fun d => time_sleep d = Ok tt) delays.

(** [func] raises at each of its first [n] calls. *)
Definition fails_before (func : nat -> res A) (n : nat) : Prop :=
  forall k, (k < n)%nat -> exists e, func k = Raise e.

End Retry.

Arguments retry_run A delay_t : clear implicits.
Arguments retry_result {A delay_t} _.
Arguments retry_calls {A delay_t} _.
Arguments retry_sleeps {A delay_t} _.
Arguments retry_loop {A delay_t} mul time_sleep func func_name max_attempts backoff
  remaining attempt current_delay slept.
Arguments retry {A delay_t} mul time_sleep max_attempts delay backoff func_name func.
Arguments backoff_delays {delay_t} mul delay backoff n.
Arguments sleeps_well {delay_t} time_sleep delays.

(** The body of [OrchestrateSkills.invoke_skill] with its [try] statement
    written out: the request, the test of the status code and the decoding
    of the answer are inside it, and its handler returns [None]. *)
Definition invoke_skill_body (self : OrchestrateSkills) (skill_name input_data : value)
  : res value :=
  if negb (is_connected self) then
    Ok (VDict [(SStr "skill", skill_name);
               (SStr "status", VStr "mock_success");
               (SStr "result", input_data)])
  else
    let endpoint := url self ++ "/v1/skills/" ++ py_str skill_name ++ "/invoke" in
    try_default
      (response <- session_post self endpoint input_data ;;
       if (status_code response =? 200)%Z then json response else Ok VNone)%R
      VNone.

(** [OrchestrateSkills.invoke_skill] as the class binds it, under
    [@retry(max_attempts=3, delay=1.0)]; [one] and [two] are the floats
    [1.0] and [2.0].  [selves k] is the object, with the remote service
    behind it, as it is when the body is called for the [k]-th time. *)
Definition retried_invoke_skill {delay_t : Type} (mul : delay_t -> delay_t -> delay_t)
    (time_sleep : delay_t -> res unit) (one two : delay_t)
    (selves : nat -> OrchestrateSkills) (skill_name input_data : value)
  : retry_run value delay_t :=
  retry mul time_sleep 3 one two "invoke_skill"
        (fun k => invoke_skill_body (selves k) skill_name input_data).

Section Breaker.

(** The clock: [time.time()] reads a float off the world.  The tests that
    the breaker makes on these floats are parameters: the truth value of a
    reading and [(now - last) > timeout]. *)
Variable W : Type.
Variable time : Type.
Variable time_time : W -> time * W.
Variable time_truthy : time -> bool.
Variable expired : time -> time -> Z -> bool.

Inductive breaker_state : Type := closed | open | half_open.

(** A [CircuitBreaker] object. *)
Record CircuitBreaker : Type := {
  failure_threshold : Z;
  timeout : Z;
  failure_count : Z;
  last_failure_time : option time;
  cb_state : breaker_state
}.

(** [CircuitBreaker.__init__] *)
Definition new_breaker (failure_threshold timeout : Z) : CircuitBreaker :=
  {| failure_threshold := failure_threshold;
     timeout := timeout;
     failure_count := 0;
     last_failure_time := None;
     cb_state := closed |}.

Definition set_state (self : CircuitBreaker) (s : breaker_state) : CircuitBreaker :=
  {| failure_threshold := failure_threshold self;
     timeout := timeout self;
     failure_count := failure_count self;
     last_failure_time := last_failure_time self;
     cb_state := s |}.

Definition breaker_open : pyexc :=
  PyExc "Exception" "Circuit breaker is OPEN - service unavailable".

(** The first statement of [call]: an open breaker lets the call through,
    half-open, when the timeout has passed since the last failure, and
    raises otherwise ([None]). *)
Definition let_through (self : CircuitBreaker) (w : W) : option CircuitBreaker * W :=
  match cb_state self with
  | open =>
      match last_failure_time self with
      | Some last =>
          if time_truthy last then
            let '(now, w') := time_time w in
            if expired now last (timeout self)
            then (Some (set_state self half_open), w')
            else (None, w')
          else (None, w)
      | None => (None, w)
      end
  | _ => (Some self, w)
  end.

(** [CircuitBreaker.call]; [func] is the protected function applied to its
    arguments, acting on the world. *)
Definition call {A} (self : CircuitBreaker) (func : W -> res A * W) (w : W)
  : res A * CircuitBreaker * W :=
  match let_through self w with
  | (None, w') => (Raise breaker_open, self, w')
  | (Some self, w') =>
      match func w' with
      | (Ok result, w'') =>
          let self := match cb_state self with
                      | half_open => set_state self closed
                      | _ => self
                      end in
          (Ok result,
           {| failure_threshold := failure_threshold self;
              timeout := timeout self;
              failure_count := 0;
              last_failure_time := last_failure_time self;
              cb_state := cb_state self |},
           w'')
      | (Raise e, w'') =>
          let '(now, w''') := time_time w'' in
          let self := {| failure_threshold := failure_threshold self;
                         timeout := timeout self;
                         failure_count := failure_count self + 1;
                         last_failure_time := Some now;
                         cb_state := cb_state self |} in
          let self := if (failure_count self >=? failure_threshold self)%Z
                      then set_state self open else self in
          (Raise e, self, w''')
      end
  end.

(** [CircuitBreaker.reset] *)
Definition reset (self : CircuitBreaker) : CircuitBreaker :=
  {| failure_threshold := failure_threshold self;
     timeout := timeout self;
     failure_count := 0;
     last_failure_time := None;
     cb_state := closed |}.

(** Calls made one after the other on the same breaker. *)
Fixpoint calls {A} (self : CircuitBreaker) (funcs : list (W -> res A * W)) (w : W)
  : CircuitBreaker * W :=
  match funcs with
  | [] => (self, w)
  | func :: funcs' =>
      let '(_, self', w') := call self func w in calls self' funcs' w'
  end.

(** [func] raises whatever the world is. *)
Definition fails {A} (func : W -> res A * W) : Prop :=
  forall w, exists e w', func w = (Raise e, w').

(** The breakers that the operations produce from a new one. *)
Inductive reachable : CircuitBreaker -> Prop :=
| reachable_new (failure_threshold timeout : Z) :
    reachable (new_breaker failure_threshold timeout)
| reachable_call (A : Type) (self : CircuitBreaker) (func : W -> res A * W) (w : W) :
    reachable self -> reachable (snd (fst (call self func w)))
| reachable_reset (self : CircuitBreaker) :
    reachable self -> reachable (reset self).

End Breaker.

Arguments failure_threshold {time} _.
Arguments timeout {time} _.
Arguments failure_count {time} _.
Arguments last_failure_time {time} _.
Arguments cb_state {time} _.
Arguments set_state {time} self s.
Arguments reset {time} self.
Arguments let_through {W time} time_time time_truthy expired self w.
Arguments call {W time} time_time time_truthy expired {A} self func w.
Arguments calls {W time} time_time time_truthy expired {A} self funcs w.
Arguments fails {W A} func.
Arguments reachable {W time} time_time time_truthy expired _.

End Recovery.

(** ** Configuration ([app/config.py]) and connection ([skills.py]) *)

Module Configuration.

(** The attributes of the class [Config] that [validate] and [connect]
    read: the feature flags and the credentials, which are [None] when the
    environment does not define them. *)
Record Config : Type := {
  USE_CLOUDANT : bool;
  CLOUDANT_URL : option string;
  CLOUDANT_API_KEY : option string;
  NLU_API_KEY : option string;
  NLU_URL : option string;
  WATSONX_API_KEY : option string;
  WATSONX_URL : option string;
  WATSONX_PROJECT_ID : option string;
  ORCHESTRATE_API_KEY : option string;
  ORCHESTRATE_URL : option string;
  ORCHESTRATE_PROJECT_ID : option string;
  STT_API_KEY : option string;
  STT_URL : option string;
  TTS_API_KEY : option string;
  TTS_URL : option string;
  JWT_SECRET_KEY : option string;
  ENABLE_NLU : bool;
  ENABLE_WATSONX : bool;
  ENABLE_ORCHESTRATE : bool;
  ENABLE_SPEECH : bool;
  ENABLE_AUTH : bool
}.

(** The truth value of an optional string: [None] and the empty string are
    false. *)
Definition truthy (x : option string) : bool :=
  match x with
  | None => false
  | Some EmptyString => false
  | Some _ => true
  end.

(** [if not value: missing.append(name)] *)
Definition require (value : option string) (name : string) (missing : list string)
  : list string :=
  if negb (truthy value) then (missing ++ [name])%list else missing.

(** [Config.validate] *)
Definition validate (cls : Config) : list string :=
  let missing := [] in
  let missing :=
    if USE_CLOUDANT cls then
      let missing := require (CLOUDANT_URL cls) "CLOUDANT_URL" missing in
      require (CLOUDANT_API_KEY cls) "CLOUDANT_API_KEY" missing
    else missing in
  let missing :=
    if ENABLE_NLU cls then
      let missing := require (NLU_API_KEY cls) "NLU_API_KEY" missing in
      require (NLU_URL cls) "NLU_URL" missing
    else missing in
  let missing :=
    if ENABLE_WATSONX cls then
      let missing := require (WATSONX_API_KEY cls) "WATSONX_API_KEY" missing in
      let missing := require (WATSONX_URL cls) "WATSONX_URL" missing in
      require (WATSONX_PROJECT_ID cls) "WATSONX_PROJECT_ID" missing
    else missing in
  let missing :=
    if ENABLE_ORCHESTRATE cls then
      let missing := require (ORCHESTRATE_API_KEY cls) "ORCHESTRATE_API_KEY" missing in
      let missing := require (ORCHESTRATE_URL cls) "ORCHESTRATE_URL" missing in
      require (ORCHESTRATE_PROJECT_ID cls) "ORCHESTRATE_PROJECT_ID" missing
    else missing in
  let missing :=
    if ENABLE_SPEECH cls then
      let missing := require (STT_API_KEY cls) "STT_API_KEY" missing in
      let missing := require (STT_URL cls) "STT_URL" missing in
      let missing := require (TTS_API_KEY cls) "TTS_API_KEY" missing in
      require (TTS_URL cls) "TTS_URL" missing
    else missing in
  let missing :=
    if ENABLE_AUTH cls && negb (truthy (JWT_SECRET_KEY cls))
    then (missing ++ ["JWT_SECRET_KEY"])%list else missing in
  missing.

(** [s.endswith(suffix)]: [suffix] is [s] or ends what follows the first
    character of [s]. *)
Fixpoint endswith (s suffix : string) : bool :=
  String.eqb s suffix
  || match s with
     | EmptyString => false
     | String _ s' => endswith s' suffix
     end.

(** [s[:-1]] *)
Fixpoint without_last (s : string) : string :=
  match s with
  | EmptyString => EmptyString
  | String c EmptyString => EmptyString
  | String c s' => String c (without_last s')
  end.

(** The attributes of an [OrchestrateSkills] object that [connect] writes;
    the HTTP session is left as it is. *)
Record connection : Type := {
  api_key : option string;
  url : option string;
  project_id : option string;
  _initialized : bool
}.

(** [OrchestrateSkills.__init__] *)
Definition new_connection : connection :=
  {| api_key := None; url := None; project_id := None; _initialized := false |}.

(** [OrchestrateSkills.connect]: the result and the object afterwards. *)
Definition connect (config : Config) (self : connection) : bool * connection :=
  if negb (ENABLE_ORCHESTRATE config) then (false, self)
  else if negb (truthy (ORCHESTRATE_API_KEY config))
          || negb (truthy (ORCHESTRATE_URL config))
          || negb (truthy (ORCHESTRATE_PROJECT_ID config))
  then (false, self)
  else
    let self_url :=
      match ORCHESTRATE_URL config with
      | Some u => Some (if endswith u "/" then without_last u else u)
      | None => None
      end in
    (true,
     {| api_key := ORCHESTRATE_API_KEY config;
        url := self_url;
        project_id := ORCHESTRATE_PROJECT_ID config;
        _initialized := true |}).

(** The part of the object that [invoke_skill] reads, for a given remote
    service; [f"{self.url}"] is ["None"] as long as the URL is not set. *)
Definition skills_of (self : connection)
    (session_post : string -> value -> res response) : OrchestrateSkills :=
  Build_OrchestrateSkills
    (_initialized self)
    (match url self with Some u => u | None => "None" end)
    session_post.

(** The configuration [config] with another Orchestrate URL. *)
Definition with_url (config : Config) (u : option string) : Config :=
  {| USE_CLOUDANT := USE_CLOUDANT config;
     CLOUDANT_URL := CLOUDANT_URL config;
     CLOUDANT_API_KEY := CLOUDANT_API_KEY config;
     NLU_API_KEY := NLU_API_KEY config;
     NLU_URL := NLU_URL config;
     WATSONX_API_KEY := WATSONX_API_KEY config;
     WATSONX_URL := WATSONX_URL config;
     WATSONX_PROJECT_ID := WATSONX_PROJECT_ID config;
     ORCHESTRATE_API_KEY := ORCHESTRATE_API_KEY config;
     ORCHESTRATE_URL := u;
     ORCHESTRATE_PROJECT_ID := ORCHESTRATE_PROJECT_ID config;
     STT_API_KEY := STT_API_KEY config;
     STT_URL := STT_URL config;
     TTS_API_KEY := TTS_API_KEY config;
     TTS_URL := TTS_URL config;
     JWT_SECRET_KEY := JWT_SECRET_KEY config;
     ENABLE_NLU := ENABLE_NLU config;
     ENABLE_WATSONX := ENABLE_WATSONX config;
     ENABLE_ORCHESTRATE := ENABLE_ORCHESTRATE config;
     ENABLE_SPEECH := ENABLE_SPEECH config;
     ENABLE_AUTH := ENABLE_AUTH config |}.

End Configuration.

(** ** Sample data for the recovery utilities and the connection *)

Module Samples.

(** Delays in whole seconds; [time.sleep] refuses the negative ones. *)
Definition mul : Z -> Z -> Z := Z.mul.

Definition time_sleep (d : Z) : res unit :=
  if (d <? 0)%Z then Raise (PyExc "ValueError" "sleep length must be non-negative")
  else Ok tt.

(** A function that fails twice and then returns. *)
Definition flaky (k : nat) : res Z :=
  if (k <? 2)%nat then Raise (PyExc "ConnectionError" "timed out") else Ok 7%Z.

(** A function that always fails, with a message that tells the calls
    apart. *)
Definition down (k : nat) : res Z :=
  Raise (PyExc "ConnectionError"
               (if (k =? 2)%nat then "third failure" else "earlier failure")).

(** A clock in whole seconds that moves on by one second at each
    reading. *)
Definition time_time (w : Z) : Z * Z := (w, (w + 1)%Z).

Definition time_truthy (t : Z) : bool := negb (t =? 0)%Z.

Definition expired (now last timeout : Z) : bool := (now - last >? timeout)%Z.

(** A protected function that fails after ten seconds, and one that
    returns after one second. *)
Definition failing (w : Z) : res unit * Z :=
  (Raise (PyExc "ConnectionError" "service down"), (w + 10)%Z).

Definition working (w : Z) : res unit * Z := (Ok tt, (w + 1)%Z).

(** The breaker after one failure at the threshold 1. *)
Definition tripped : Recovery.CircuitBreaker Z :=
  snd (fst (Recovery.call time_time time_truthy expired
              (Recovery.new_breaker Z 1 60) failing 100%Z)).

(** The configuration of [tests/test_orchestrate.py]. *)
Definition mock_config : Configuration.Config :=
  {| Configuration.USE_CLOUDANT := false;
     Configuration.CLOUDANT_URL := None;
     Configuration.CLOUDANT_API_KEY := None;
     Configuration.NLU_API_KEY := None;
     Configuration.NLU_URL := None;
     Configuration.WATSONX_API_KEY := None;
     Configuration.WATSONX_URL := None;
     Configuration.WATSONX_PROJECT_ID := None;
     Configuration.ORCHESTRATE_API_KEY := Some "test-key";
     Configuration.ORCHESTRATE_URL := Some "https://api.orchestrate.ibm.com";
     Configuration.ORCHESTRATE_PROJECT_ID := Some "proj-123";
     Configuration.STT_API_KEY := None;
     Configuration.STT_URL := None;
     Configuration.TTS_API_KEY := None;
     Configuration.TTS_URL := None;
     Configuration.JWT_SECRET_KEY := None;
     Configuration.ENABLE_NLU := false;
     Configuration.ENABLE_WATSONX := false;
     Configuration.ENABLE_ORCHESTRATE := true;
     Configuration.ENABLE_SPEECH := false;
     Configuration.ENABLE_AUTH := false |}.

(** An evaluator that knows one expression with a side effect besides the
    comparisons: in Python, [context.update(flag=1)] sets the key [flag]
    of the context and returns [None]. *)
Definition update_text : string := "context.update(flag=1)".

Definition updating_eval (text : string) (context : pydict) : res value :=
  if String.eqb text update_text then Ok VNone
  else Expr.eval_restricted text context.

Definition updating_effect (text : string) (context : pydict) : pydict :=
  if String.eqb text update_text then dict_set context (SStr "flag") (VInt 1)
  else context.

(** A flow made of one switch whose only case has this condition. *)
Definition updating_case : pydict :=
  [(SStr "condition", VStr update_text);
   (SStr "actions", VList [VDict Tests.script_step])].

Definition updating_switch : pydict :=
  [(SStr "id", VStr "gate"); (SStr "type", VStr "switch");
   (SStr "cases", VList [VDict updating_case])].

Definition updating_flow : pydict :=
  [(SStr "name", VStr "Update"); (SStr "steps", VList [VDict updating_switch])].

Definition updating_runner : FlowRunner := new_FlowRunner [("Update", updating_flow)].

(** A connected invoker whose remote service refuses the first request
    and answers the later ones. *)
Definition recovering (k : nat) : OrchestrateSkills :=
  {| _initialized := true;
     url := "https://api.orchestrate.ibm.com";
     session_post := fun _ input_data =>
       match k with
       | O => Raise (PyExc "ConnectionError" "connection refused")
       | S _ => Ok {| status_code := 200; json := Ok input_data |}
       end |}.

(** A switch whose only case is always taken and waits for an event
    after a first action and before it validates. *)
Definition waiting_case : pydict :=
  [(SStr "condition", VStr "else");
   (SStr "actions", VList [VDict Tests.email_step; VDict Tests.wait_step;
                           VDict Tests.script_step])].

Definition waiting_switch : pydict :=
  [(SStr "id", VStr "gate"); (SStr "type", VStr "switch");
   (SStr "cases", VList [VDict waiting_case])].

(** A skill step whose input is a string instead of a map. *)
Definition malformed_skill_step : pydict :=
  [(SStr "id", VStr "extract"); (SStr "type", VStr "skill");
   (SStr "skill", VStr "extract_invoice");
   (SStr "input", VStr "{{invoice.total}}")].

(** A case whose condition is a number. *)
Definition numeric_case : pydict :=
  [(SStr "condition", VInt 1); (SStr "actions", VList [VDict Tests.script_step])].

(** A template whose placeholder the context of the tests does not
    define. *)
Definition unknown_template : pydict :=
  [(SStr "greeting", VStr "Hello {{customer}}"); (SStr "copies", VInt 2)].

End Samples.

(** * Properties *)

(** ** The built-in operations, the evaluator and the tests of the
    repository on examples *)

Example str_float_examples :
  map py_str [VFloat 1 1; VFloat 5 1; VFloat 10 1; VFloat (-125) 2; VFloat 5 2;
              VInt 123; VInt (-4); VBool true; VNone; VStr "a";
              VDict [(SStr "id", VInt 1); (SStr "tags", VList [VStr "x"; VNone])]]
  = ["0.1"; "0.5"; "1.0"; "-1.25"; "0.05"; "123"; "-4"; "True"; "None"; "a";
     "{'id': 1, 'tags': ['x', None]}"].
Proof. reflexivity. Qed.

Example replace_examples :
  Str.replace "ab" "X" "abcabab" = "XcXX"
  /\ Str.replace "aa" "b" "aaa" = "ba"
  /\ Str.replace "" "-" "abc" = "-a-b-c-"
  /\ Str.split_on "." "risk.result.score" = ["risk"; "result"; "score"]
  /\ Str.contains "lid" "validate" = true
  /\ Str.contains "x" "" = false
  /\ Str.contains "" "" = true.
Proof. repeat split; reflexivity. Qed.

Example resolve_variables_test :
  _resolve_variables
    (VDict [(SStr "greeting", VStr "Hello {{name}}"); (SStr "ref", VStr "ID: {{data.id}}")])
    [(SStr "name", VStr "World"); (SStr "data", VDict [(SStr "id", VInt 123)])]
  = Ok [(SStr "greeting", VStr "Hello World"); (SStr "ref", VStr "ID: 123")].
Proof. reflexivity. Qed.

Example eval_fragment_examples :
  map Expr.eval_fragment
      ["0.1 < 0.3  and  True == True"; "0.8 < 0.3  and  True == True";
       "0.5 < 0.3"; "1"; "0.1"; "None == True"; "not 1 < 2 < 3";
       "0 or 0.0 or None"; "1 <= 1.0 != 2 and 3"; "risk.level > 1"; "1 <"; ""; "01"]
  = [Some (Ok (VBool true)); Some (Ok (VBool false));
     Some (Ok (VBool false)); Some (Ok (VInt 1)); Some (Ok (VFloat 1 1));
     Some (Ok (VBool false)); Some (Ok (VBool false));
     Some (Ok VNone); Some (Ok (VInt 3)); None; None; None; None].
Proof. reflexivity. Qed.

Ltac unfold_monad :=
  unfold bind, lift, ret, get_context, context_set, results_append,
    try_except, rbind in *.

(** [test_evaluate_condition] *)
Example test_evaluate_condition :
  _evaluate_condition Expr.eval_restricted
    (VStr "risk.score < 0.3 && validation.ok == true") Tests.low_risk_valid
  = Ok (VBool true)
  /\ _evaluate_condition Expr.eval_restricted (VStr "risk.score < 0.3")
       Tests.high_risk_valid
     = Ok (VBool false).
Proof. split; reflexivity. Qed.

(** [test_execute_script_validate] *)
Example test_execute_script_validate :
  (r <- _script_validate_invoice Tests.input_data ;; py_get r "ok" VNone)%R
  = Ok (VBool true)
  /\ (r <- _script_validate_invoice
             [(SStr "invoice", VDict [(SStr "total", VInt 0)])] ;;
      py_get r "ok" VNone)%R
     = Ok (VBool false).
Proof. split; reflexivity. Qed.

(** [test_execute_flow_mock]: the flow completes, validation is stored
    and the nested [auto_approve], which has neither [output] nor [id],
    stores its result under the key [None]. *)
Example test_execute_flow_mock :
  exists out final_context,
    execute_flow Expr.eval_restricted Expr.no_effect Tests.no_skills Tests.runner
      "TestFlow" Tests.input_data = Some out
    /\ field out "status" = Some (VStr "completed")
    /\ field out "final_context" = Some (VDict final_context)
    /\ (v <- py_get (dict_get_default final_context "validation" VNone) "ok" VNone ;;
        Ok v)%R = Ok (VBool true)
    /\ dict_get final_context SNone = Some (VDict [(SStr "approved", VBool true)])
    /\ field out "results"
       = Some (VList [record_success (VStr "step1")
                        (VDict [(SStr "ok", VBool true); (SStr "message", VStr "Valid")]);
                      record_success VNone (VDict [(SStr "approved", VBool true)])]).
Proof. do 2 eexists. repeat split. Qed.

(** Sequencing depends on the continuation only through its results. *)
Lemma bind_ext {A B} (m : M A) (k1 k2 : A -> M B) (s : state) :
  (forall a s', k1 a s' = k2 a s') -> bind m k1 s = bind m k2 s.
Proof.
  intros H. unfold bind. destruct (m s) as [[[a|e] s']|]; auto.
Qed.

(** ** The skill invoker *)

(** Without a connection the invoker answers with a mock map, which is
    not empty. *)
Lemma invoke_skill_not_connected (skills : OrchestrateSkills)
    (skill_name input_data : value) :
  _initialized skills = false ->
  invoke_skill skills skill_name input_data
  = VDict [(SStr "skill", skill_name);
           (SStr "status", VStr "mock_success");
           (SStr "result", input_data)]
  /\ py_truthy (invoke_skill skills skill_name input_data) = true.
Proof.
  intros H. unfold invoke_skill, is_connected. rewrite H. split; reflexivity.
Qed.

(** With a connection, a transport error, an answer whose status is not
    200 and a body that is not JSON all give [None]. *)
Lemma invoke_skill_failure (skills : OrchestrateSkills)
    (skill_name input_data : value) :
  _initialized skills = true ->
  let endpoint := url skills ++ "/v1/skills/" ++ py_str skill_name ++ "/invoke" in
  (forall e, session_post skills endpoint input_data = Raise e ->
     invoke_skill skills skill_name input_data = VNone)
  /\ (forall r, session_post skills endpoint input_data = Ok r ->
       status_code r <> 200%Z \/ (exists e, json r = Raise e) ->
       invoke_skill skills skill_name input_data = VNone)
  /\ (forall r body, session_post skills endpoint input_data = Ok r ->
       status_code r = 200%Z -> json r = Ok body ->
       invoke_skill skills skill_name input_data = body).
Proof.
  intros H endpoint. unfold invoke_skill, is_connected. rewrite H. simpl negb. cbv iota.
  fold endpoint. repeat split.
  - intros e ->. reflexivity.
  - intros r -> [Hs|[e He]].
    + apply Z.eqb_neq in Hs. rewrite Hs. reflexivity.
    + rewrite He. destruct (status_code r =? 200)%Z; reflexivity.
  - intros r body -> Hs ->. rewrite Hs. reflexivity.
Qed.

Section StepSequences.

Variable py_eval : string -> pydict -> res value.
Variable py_eval_effect : string -> pydict -> pydict.
Variable orchestrate_skills : OrchestrateSkills.
Variable self : FlowRunner.

Local Abbreviation loop := (steps_loop py_eval py_eval_effect orchestrate_skills self).
Local Abbreviation run := (_execute_steps py_eval py_eval_effect orchestrate_skills self).
Local Abbreviation eval_cond := (_evaluate_condition py_eval).
Local Abbreviation cases_loop := (switch_cases py_eval py_eval_effect).
Local Abbreviation tested := (case_effect py_eval_effect).

Lemma execute_steps_list (fuel : nat) (steps : list value) (s : state) :
  run (S fuel) (VList steps) s = loop (run fuel) steps s.
Proof. reflexivity. Qed.

(** What precedes a step sequence does not change how it runs: two
    sequences that run alike still do so after a common prefix. *)
Lemma steps_loop_prefix (rec : value -> M unit) (pre l1 l2 : list value) :
  (forall s, loop rec l1 s = loop rec l2 s) ->
  forall s, loop rec (pre ++ l1)%list s = loop rec (pre ++ l2)%list s.
Proof.
  intros H. induction pre as [|step pre IH]; intros s; simpl; [apply H|].
  apply bind_ext; intros id s1.
  apply bind_ext; intros ty s2.
  repeat match goal with
         | |- context [if ?b then _ else _] => destruct b
         end;
    try reflexivity; try apply IH;
    apply bind_ext; intros; apply IH.
Qed.

Lemma steps_loop_unrecognized (rec : value -> M unit) (step : pydict)
    (rest : list value) (s : state) :
  unrecognized step ->
  loop rec (VDict step :: rest) s = loop rec rest s.
Proof.
  intros (H1 & H2 & H3 & H4).
  unfold step_type in *. simpl. unfold_monad. simpl.
  rewrite H1, H2, H3, H4. reflexivity.
Qed.

(** C10.  A step whose type is none of [skill], [script], [switch] and
    [wait_for_event] (a missing type reads as [None]) is passed over: the
    sequence runs as if the step were not there; on its own it returns
    normally with the context and the result log as they were. *)
Theorem unrecognized_step_is_skipped (fuel : nat) (pre post : list value)
    (step : pydict) (s : state) :
  unrecognized step ->
  run (S fuel) (VList (pre ++ VDict step :: post)) s
  = run (S fuel) (VList (pre ++ post)) s
  /\ run (S fuel) (VList [VDict step]) s = Some (Ok tt, s).
Proof.
  intros H. split.
  - rewrite !execute_steps_list. apply steps_loop_prefix.
    intros s'. apply steps_loop_unrecognized, H.
  - rewrite execute_steps_list, steps_loop_unrecognized by exact H. reflexivity.
Qed.

Lemma steps_loop_wait (rec : value -> M unit) (step : pydict)
    (rest : list value) (s : state) :
  py_eq_str (step_type step) "wait_for_event" = true ->
  loop rec (VDict step :: rest) s
  = Some (Ok tt, mkState (context s)
                         (results s ++ [record_paused (step_id step)])).
Proof.
  intros H. unfold step_type in H. simpl. unfold_monad. simpl.
  destruct (dict_get_default step "type" VNone) as [[| | | |ty]| |];
    try discriminate H.
  simpl in H. apply String.eqb_eq in H. subst ty. reflexivity.
Qed.


(** The effect of a skill step on the shared state. *)
Lemma execute_skill_step_dict (step template : pydict) (key : scalar) (s : state) :
  dict_get_default step "input" (VDict []) = VDict template ->
  output_var (VDict step) = Ok (VS key) ->
  let resolved := map (fun kv => (fst kv, resolve_value (snd kv) (context s))) template in
  let result := invoke_skill orchestrate_skills
                  (dict_get_default step "skill" VNone) (VDict resolved) in
  _execute_skill_step orchestrate_skills (VDict step) s
  = Some (Ok tt,
          if py_truthy result
          then mkState (dict_set (context s) key result)
                       (results s ++ [record_success (step_id step) result])
          else mkState (context s)
                       (results s ++ [record_failed (step_id step)])).
Proof.
  intros Hin Hout. unfold _execute_skill_step. unfold_monad.
  simpl py_get. cbv iota. rewrite Hin. cbn [_resolve_variables]. rewrite Hout.
  unfold step_id. destruct (py_truthy _); reflexivity.
Qed.


(** The handler that the loop over the registry selects for a script
    text. *)
Lemma find_handler_first (before after : list (string * handler))
    (name : string) (method : handler) (text : string) :
  Forall (fun nh => Str.contains (fst nh) text = false) before ->
  Str.contains name text = true ->
  find_handler (before ++ (name, method) :: after) (VStr text) = Ok (Some method).
Proof.
  intros Hb Hn. induction Hb as [|[n h] before Hx _ IH]; simpl.
  - rewrite Hn. reflexivity.
  - simpl in Hx. rewrite Hx. exact IH.
Qed.

Lemma find_handler_none (handlers : list (string * handler)) (text : string) :
  Forall (fun nh => Str.contains (fst nh) text = false) handlers ->
  find_handler handlers (VStr text) = Ok None.
Proof.
  intros Hb. induction Hb as [|[n h] before Hx _ IH]; simpl.
  - reflexivity.
  - simpl in Hx. rewrite Hx. exact IH.
Qed.

Lemma steps_loop_script (rec : value -> M unit) (step : pydict)
    (rest : list value) (s : state) :
  py_eq_str (step_type step) "script" = true ->
  loop rec (VDict step :: rest) s
  = bind (_execute_script_step self (VDict step)) (fun _ => loop rec rest) s.
Proof.
  intros H. unfold step_type in H. simpl.
  unfold bind at 1. unfold lift at 1. simpl py_get. cbv iota.
  unfold bind at 1. unfold lift at 1. cbv iota.
  destruct (dict_get_default step "type" VNone) as [[| | | |ty]| |];
    try discriminate H.
  simpl in H. apply String.eqb_eq in H. subst ty. reflexivity.
Qed.


(** A case that does not match: its condition has been evaluated. *)
Lemma switch_cases_skip (rec : value -> M unit) (case : pydict)
    (cases : list value) (s : state) :
  case_matches py_eval case (context s) = false ->
  cases_loop rec (VDict case :: cases) s
  = cases_loop rec cases (mkState (tested case (context s)) (results s)).
Proof.
  unfold case_matches, case_effect. intros H.
  apply orb_false_elim in H as [Helse Hcond].
  simpl. unfold bind at 1. unfold lift at 1. simpl py_get. cbv iota.
  rewrite Helse. unfold bind at 1, call_evaluate_condition.
  destruct (eval_cond _ _) as [v|e] eqn:E.
  - rewrite Hcond. reflexivity.
  - unfold _evaluate_condition, try_default in E.
    match type of E with
    | match ?b with _ => _ end = Raise _ => destruct b; discriminate E
    end.
Qed.

Lemma switch_cases_hit (rec : value -> M unit) (case : pydict)
    (cases : list value) (s : state) :
  case_matches py_eval case (context s) = true ->
  cases_loop rec (VDict case :: cases) s
  = rec (dict_get_default case "actions" (VList []))
        (mkState (tested case (context s)) (results s)).
Proof.
  unfold case_matches, case_effect. intros H.
  simpl. unfold bind at 1. unfold lift at 1. simpl py_get. cbv iota.
  destruct (py_eq_str _ "else"); simpl in H.
  - unfold bind at 1, ret. simpl py_truthy. cbv iota.
    unfold bind, lift. destruct s. reflexivity.
  - unfold bind at 1, call_evaluate_condition.
    destruct (eval_cond _ _) as [v|e]; [|discriminate H].
    rewrite H. reflexivity.
Qed.

Lemma steps_loop_switch (rec : value -> M unit) (step : pydict)
    (rest : list value) (s : state) :
  py_eq_str (step_type step) "switch" = true ->
  loop rec (VDict step :: rest) s
  = bind (_execute_switch_step py_eval py_eval_effect rec (VDict step))
         (fun _ => loop rec rest) s.
Proof.
  intros H. unfold step_type in H. simpl.
  unfold bind at 1. unfold lift at 1. simpl py_get. cbv iota.
  unfold bind at 1. unfold lift at 1. cbv iota.
  destruct (dict_get_default step "type" VNone) as [[| | | |ty]| |];
    try discriminate H.
  simpl in H. apply String.eqb_eq in H. subst ty. reflexivity.
Qed.

Lemma switch_cases_first (rec : value -> M unit) (before : list pydict)
    (case : pydict) (after : list value) (s : state) (context1 : pydict) :
  skips py_eval py_eval_effect before (context s) = Some context1 ->
  case_matches py_eval case context1 = true ->
  cases_loop rec (map VDict before ++ VDict case :: after)%list s
  = rec (dict_get_default case "actions" (VList []))
        (mkState (tested case context1) (results s)).
Proof.
  revert s. induction before as [|c before IH]; intros s Hbefore Hcase;
    simpl map; simpl app; simpl in Hbefore.
  - injection Hbefore as <-. apply switch_cases_hit, Hcase.
  - destruct (case_matches py_eval c (context s)) eqn:Hc; [discriminate Hbefore|].
    rewrite switch_cases_skip by exact Hc. apply (IH (mkState _ _) Hbefore Hcase).
Qed.

Lemma switch_cases_none (rec : value -> M unit) (all : list pydict) (s : state)
    (context1 : pydict) :
  skips py_eval py_eval_effect all (context s) = Some context1 ->
  cases_loop rec (map VDict all) s = Some (Ok tt, mkState context1 (results s)).
Proof.
  revert s. induction all as [|c all IH]; intros s Hall; simpl map; simpl in Hall.
  - injection Hall as <-. destruct s. reflexivity.
  - destruct (case_matches py_eval c (context s)) eqn:Hc; [discriminate Hall|].
    rewrite switch_cases_skip by exact Hc. apply (IH (mkState _ _) Hall).
Qed.

(** When the evaluation of the conditions has no effect, the cases are all
    tested in the same context. *)
Lemma case_effect_free (case : pydict) (context : pydict) :
  effect_free py_eval_effect -> tested case context = context.
Proof.
  intros Hfree. unfold case_effect, _evaluate_condition_effect.
  destruct (py_eq_str _ "else"); [reflexivity|].
  destruct (rewrite_condition _ _) as [[[| | | |text]| |]|e]; try reflexivity.
  apply Hfree.
Qed.

Lemma skips_effect_free (before : list pydict) (context : pydict) :
  effect_free py_eval_effect ->
  Forall (fun c => case_matches py_eval c context = false) before ->
  skips py_eval py_eval_effect before context = Some context.
Proof.
  intros Hfree Hbefore. induction Hbefore as [|c before Hc _ IH]; simpl.
  - reflexivity.
  - rewrite Hc, case_effect_free by exact Hfree. exact IH.
Qed.

(** The switch step of a sequence, in terms of the tests it makes. *)
Lemma switch_step_match (fuel : nat) (step : pydict) (rest : list value) (s : state)
    (before : list pydict) (case : pydict) (after : list value) (context1 : pydict) :
  py_eq_str (step_type step) "switch" = true ->
  dict_get_default step "cases" (VList [])
  = VList (map VDict before ++ VDict case :: after)%list ->
  skips py_eval py_eval_effect before (context s) = Some context1 ->
  case_matches py_eval case context1 = true ->
  run (S fuel) (VList (VDict step :: rest)) s
  = bind (run fuel (dict_get_default case "actions" (VList [])))
         (fun _ => run (S fuel) (VList rest))
         (mkState (tested case context1) (results s)).
Proof.
  intros Hty Hcases Hbefore Hcase.
  rewrite execute_steps_list, steps_loop_switch by exact Hty.
  unfold _execute_switch_step.
  unfold bind at 1 2 3. unfold lift. simpl py_get. cbv iota.
  rewrite Hcases. simpl py_iter. cbv iota.
  rewrite (switch_cases_first _ _ _ _ _ _ Hbefore Hcase). reflexivity.
Qed.

Lemma switch_step_no_match (fuel : nat) (step : pydict) (rest : list value) (s : state)
    (all : list pydict) (context1 : pydict) :
  py_eq_str (step_type step) "switch" = true ->
  dict_get_default step "cases" (VList []) = VList (map VDict all) ->
  skips py_eval py_eval_effect all (context s) = Some context1 ->
  run (S fuel) (VList (VDict step :: rest)) s
  = run (S fuel) (VList rest) (mkState context1 (results s)).
Proof.
  intros Hty Hcases Hall.
  rewrite execute_steps_list, steps_loop_switch by exact Hty.
  unfold _execute_switch_step.
  unfold bind at 1 2 3. unfold lift. simpl py_get. cbv iota.
  rewrite Hcases. simpl py_iter. cbv iota.
  rewrite (switch_cases_none _ _ _ _ Hall). reflexivity.
Qed.

(** C3, as the code has it.  A switch step examines its cases in order,
    each condition being evaluated in the context that the evaluation of
    the conditions before it has left.  The first case whose condition is
    ["else"] or evaluates to a true value has its actions run as a nested
    step sequence, after which the outer sequence goes on; the cases after
    it play no part.  When no case matches, the step appends no record and
    the outer sequence goes on with the next step, in the context that the
    evaluations have left.  When the evaluation of conditions has no
    effect on the context, the cases are all tested in the context of the
    step, and a switch with no matching case leaves this context as it
    is. *)
Theorem switch_first_match_wins (fuel : nat) (step : pydict) (cases : list value)
    (rest : list value) (s : state) :
  py_eq_str (step_type step) "switch" = true ->
  dict_get_default step "cases" (VList []) = VList cases ->
  (forall before case after context1,
     cases = (map VDict before ++ VDict case :: after)%list ->
     skips py_eval py_eval_effect before (context s) = Some context1 ->
     case_matches py_eval case context1 = true ->
     run (S fuel) (VList (VDict step :: rest)) s
     = bind (run fuel (dict_get_default case "actions" (VList [])))
            (fun _ => run (S fuel) (VList rest))
            (mkState (tested case context1) (results s)))
  /\ (forall all context1,
     cases = map VDict all ->
     skips py_eval py_eval_effect all (context s) = Some context1 ->
     run (S fuel) (VList (VDict step :: rest)) s
     = run (S fuel) (VList rest) (mkState context1 (results s)))
  /\ (effect_free py_eval_effect ->
      (forall before case after,
         cases = (map VDict before ++ VDict case :: after)%list ->
         Forall (fun c => case_matches py_eval c (context s) = false) before ->
         case_matches py_eval case (context s) = true ->
         run (S fuel) (VList (VDict step :: rest)) s
         = bind (run fuel (dict_get_default case "actions" (VList [])))
                (fun _ => run (S fuel) (VList rest)) s)
      /\ (forall all,
         cases = map VDict all ->
         Forall (fun c => case_matches py_eval c (context s) = false) all ->
         run (S fuel) (VList (VDict step :: rest)) s = run (S fuel) (VList rest) s)).
Proof.
  intros Hty Hcases. split; [|split].
  - intros before case after context1 -> Hbefore Hcase.
    apply (switch_step_match fuel step rest s before case after context1); assumption.
  - intros all context1 -> Hall.
    apply (switch_step_no_match fuel step rest s all context1); assumption.
  - intros Hfree. split.
    + intros before case after -> Hbefore Hcase.
      rewrite (switch_step_match fuel step rest s before case after (context s));
        try assumption.
      * rewrite case_effect_free by exact Hfree. destruct s. reflexivity.
      * apply skips_effect_free; assumption.
    + intros all -> Hall.
      rewrite (switch_step_no_match fuel step rest s all (context s)); try assumption.
      * destruct s. reflexivity.
      * apply skips_effect_free; assumption.
Qed.

End StepSequences.

(** C3 as it is stated does not hold: a case that does not match can
    change the context.  The condition is evaluated by [eval] with the
    context in scope; [context.update(flag=1)] evaluates to [None], so the
    case is not taken and no record is appended, yet the switch step leaves
    the key [flag] in the context. *)
Lemma switch_condition_changes_context :
  case_matches Samples.updating_eval Samples.updating_case (context Tests.s0) = false
  /\ dict_mem (context Tests.s0) (SStr "flag") = false
  /\ _execute_steps Samples.updating_eval Samples.updating_effect
       Tests.no_skills Tests.runner 1 (VList [VDict Samples.updating_switch]) Tests.s0
     = Some (Ok tt,
             mkState (context Tests.s0 ++ [(SStr "flag", VInt 1)])%list
                     (results Tests.s0))
  /\ _execute_steps Samples.updating_eval Samples.updating_effect
       Tests.no_skills Tests.runner 1 (VList [VDict Samples.updating_switch]) Tests.s0
     <> _execute_steps Samples.updating_eval Samples.updating_effect
          Tests.no_skills Tests.runner 1 (VList []) Tests.s0.
Proof.
  split; [reflexivity|]. split; [reflexivity|]. split; [reflexivity|].
  vm_compute. discriminate.
Qed.

(** ** The condition evaluator *)

Section Conditions.

Variable py_eval : string -> pydict -> res value.

(** [_evaluate_condition] returns a value and never raises, whatever the
    condition (a string or not), the context and the behaviour of [eval];
    when the rewriting of the condition or [eval] raises, the value is
    [False]. *)
Lemma evaluate_condition_never_raises (condition : value) (context : pydict) :
  (exists v, _evaluate_condition py_eval condition context = Ok v)
  /\ (forall e, rewrite_condition condition context = Raise e ->
        _evaluate_condition py_eval condition context = Ok (VBool false))
  /\ (forall text e, rewrite_condition condition context = Ok (VStr text) ->
        py_eval text context = Raise e ->
        _evaluate_condition py_eval condition context = Ok (VBool false)).
Proof.
  unfold _evaluate_condition, try_default, rbind. repeat split.
  - destruct (rewrite_condition condition context) as [[[| | | |text]| |]|e];
      try (eexists; reflexivity).
    destruct (py_eval text context); eexists; reflexivity.
  - intros e ->. reflexivity.
  - intros text e H1 H2. rewrite H1. simpl. rewrite H2. reflexivity.
Qed.

(** A missing condition ([None]) evaluates to [False]. *)
Lemma evaluate_condition_missing (context : pydict) :
  _evaluate_condition py_eval VNone context = Ok (VBool false).
Proof. reflexivity. Qed.

Hypothesis py_eval_fragment : Expr.extends_fragment py_eval.

(** The two evaluations of [tests/test_flow_runner.py], and the second one
    with the full condition. *)
Lemma evaluate_condition_examples :
  _evaluate_condition py_eval (VStr "risk.score < 0.3 && validation.ok == true")
    Tests.low_risk_valid = Ok (VBool true)
  /\ _evaluate_condition py_eval (VStr "risk.score < 0.3") Tests.high_risk_valid
     = Ok (VBool false)
  /\ _evaluate_condition py_eval (VStr "risk.score < 0.3 && validation.ok == true")
       Tests.high_risk_valid = Ok (VBool false).
Proof.
  unfold _evaluate_condition.
  repeat split;
    match goal with
    | |- try_default (rbind ?r _) _ = _ =>
        let t := eval vm_compute in r in
        change r with t; cbv beta iota delta [rbind]
    end;
    erewrite py_eval_fragment by (vm_compute; reflexivity); reflexivity.
Qed.

(** C6, on a context whose [risk.score] is present and is [0].  The [or]
    chain of [_evaluate_condition] takes the stored score for missing
    because it is a false value, and the condition is evaluated with the
    default [0.5]: ["risk.score < 0.3"] is [False], although [0 < 0.3]. *)
Theorem zero_score_replaced_by_default :
  get_val Tests.zero_risk "risk.score" = VInt 0
  /\ rewrite_condition (VStr "risk.score < 0.3") Tests.zero_risk = Ok (VStr "0.5 < 0.3")
  /\ _evaluate_condition py_eval (VStr "risk.score < 0.3") Tests.zero_risk = Ok (VBool false)
  /\ py_eval "0 < 0.3" Tests.zero_risk = Ok (VBool true).
Proof.
  repeat split.
  - unfold _evaluate_condition.
    match goal with
    | |- try_default (rbind ?r _) _ = _ =>
        let t := eval vm_compute in r in
        change r with t; cbv beta iota delta [rbind]
    end.
    erewrite py_eval_fragment by (vm_compute; reflexivity). reflexivity.
  - erewrite py_eval_fragment by (vm_compute; reflexivity). reflexivity.
Qed.

(** C7, on the condition ["risk.score"] alone: [_evaluate_condition]
    returns what [eval] gives, here the float [0.1], which is not a
    boolean. *)
Theorem condition_value_not_boolean :
  _evaluate_condition py_eval (VStr "risk.score") Tests.low_risk_valid = Ok (VFloat 1 1)
  /\ is_bool (VFloat 1 1) = false.
Proof.
  split; [|reflexivity].
  unfold _evaluate_condition.
  match goal with
  | |- try_default (rbind ?r _) _ = _ =>
      let t := eval vm_compute in r in
      change r with t; cbv beta iota delta [rbind]
  end.
  erewrite py_eval_fragment by (vm_compute; reflexivity). reflexivity.
Qed.

End Conditions.

Lemma eval_restricted_extends : Expr.extends_fragment Expr.eval_restricted.
Proof.
  intros text context r H. unfold Expr.eval_restricted. rewrite H. reflexivity.
Qed.

(** ** Termination: the recursion budget *)

Lemma total_ret {A} (a : A) : total (ret a).
Proof. intros s. discriminate. Qed.

Lemma total_lift {A} (r : res A) : total (lift r).
Proof. intros s. discriminate. Qed.

Lemma total_get_context : total get_context.
Proof. intros s. discriminate. Qed.

Lemma total_context_set (k : scalar) (v : value) : total (context_set k v).
Proof. intros s. discriminate. Qed.

Lemma total_results_append (r : value) : total (results_append r).
Proof. intros s. discriminate. Qed.

Lemma total_bind {A B} (m : M A) (k : A -> M B) :
  total m -> (forall a, total (k a)) -> total (bind m k).
Proof.
  intros Hm Hk s. unfold bind. specialize (Hm s).
  destruct (m s) as [[[a|e] s']|]; [apply Hk|discriminate|congruence].
Qed.

Lemma total_try_except {A} (body : M A) (handler : pyexc -> M A) :
  total body -> (forall e, total (handler e)) -> total (try_except body handler).
Proof.
  intros Hb Hh s. unfold try_except. specialize (Hb s).
  destruct (body s) as [[[a|e] s']|]; [discriminate|apply Hh|congruence].
Qed.

Lemma total_bind_lift {A B} (r : res A) (k : A -> M B) :
  (forall a, r = Ok a -> total (k a)) -> total (bind (lift r) k).
Proof.
  intros Hk s. unfold bind, lift. destruct r as [a|e]; [apply Hk; reflexivity|discriminate].
Qed.

Lemma total_if {A} (b : bool) (m1 m2 : M A) :
  total m1 -> total m2 -> total (if b then m1 else m2).
Proof. destruct b; auto. Qed.

Create HintDb total.

#[local] Hint Resolve total_ret total_lift total_get_context total_context_set
  total_results_append total_bind total_try_except total_if : total.

Lemma in_list_max (n : nat) (l : list nat) : In n l -> n <= list_max l.
Proof.
  induction l as [|m l IH]; simpl; [tauto|].
  intros [->|H]; [lia|]. specialize (IH H). lia.
Qed.

Lemma vdepth_list_elem (x : value) (l : list value) :
  In x l -> vdepth x < vdepth (VList l).
Proof.
  intros H. simpl. apply Nat.lt_succ_r, in_list_max, in_map, H.
Qed.

Lemma vdepth_dict_get (d : pydict) (k : scalar) (v : value) :
  dict_get d k = Some v -> vdepth v < vdepth (VDict d).
Proof.
  intros H. simpl. apply Nat.lt_succ_r.
  induction d as [|[k' v'] d IH]; simpl in *; [discriminate|].
  destruct (key_eqb k' k).
  - injection H as ->. lia.
  - specialize (IH H). lia.
Qed.

(** What a loop variable can be bound to lies strictly inside the value
    iterated over, or is a scalar. *)
Lemma vdepth_iter (v x : value) (l : list value) :
  py_iter v = Ok l -> In x l -> vdepth x < vdepth v \/ vdepth x = 0.
Proof.
  destruct v as [[| | | |t]|l'|d]; simpl; try discriminate; intros [= <-] Hin.
  - right. apply in_map_iff in Hin as (c & <- & _). reflexivity.
  - left. apply (vdepth_list_elem x l' Hin).
  - right. apply in_map_iff in Hin as (kv & <- & _). reflexivity.
Qed.

(** A field read with the default [[]] out of a dict of depth below [n]
    has depth below [n]. *)
Lemma vdepth_field (d : pydict) (k : string) (n : nat) :
  vdepth (VDict d) < n -> vdepth (dict_get_default d k (VList [])) < n.
Proof.
  intros H. unfold dict_get_default.
  destruct (dict_get d (SStr k)) as [v|] eqn:E.
  - apply vdepth_dict_get in E. lia.
  - simpl in *. lia.
Qed.

Section Termination.

Variable py_eval : string -> pydict -> res value.
Variable py_eval_effect : string -> pydict -> pydict.
Variable orchestrate_skills : OrchestrateSkills.
Variable self : FlowRunner.

Local Abbreviation loop := (steps_loop py_eval py_eval_effect orchestrate_skills self).
Local Abbreviation run := (_execute_steps py_eval py_eval_effect orchestrate_skills self).

Lemma total_call_evaluate_condition (condition : value) :
  total (call_evaluate_condition py_eval py_eval_effect condition).
Proof. intros s. discriminate. Qed.

Lemma total_skill_step (step : value) : total (_execute_skill_step orchestrate_skills step).
Proof.
  unfold _execute_skill_step.
  repeat (first [apply total_bind; [|intros ?] | apply total_if]); auto with total.
Qed.

Lemma total_script_step (step : value) : total (_execute_script_step self step).
Proof.
  unfold _execute_script_step.
  repeat (first [apply total_bind; [|intros ?] | apply total_if]); auto with total.
  destruct a0; auto with total.
  apply total_try_except; [|auto with total].
  repeat (first [apply total_bind; [|intros ?] | apply total_if]); auto with total.
Qed.

Lemma total_switch_cases (rec : value -> M unit) (n : nat) (cases : list value) :
  (forall v, vdepth v < n -> total (rec v)) ->
  (forall c, In c cases -> vdepth c < n) ->
  total (switch_cases py_eval py_eval_effect rec cases).
Proof.
  intros Hrec. induction cases as [|case cases IH]; intros Hcases; simpl.
  - apply total_ret.
  - apply total_bind; [apply total_lift|intros condition].
    apply total_bind;
      [apply total_if; [apply total_ret|apply total_call_evaluate_condition]
      |intros cond_value].
    apply total_if.
    + apply total_bind_lift. intros actions Hactions.
      apply Hrec. destruct case as [k|l|d]; try discriminate Hactions.
      injection Hactions as <-. apply vdepth_field, Hcases. left. reflexivity.
    + apply IH. intros c Hc. apply Hcases. right. exact Hc.
Qed.

Lemma total_switch_step (rec : value -> M unit) (n : nat) (step : value) :
  (forall v, vdepth v < n -> total (rec v)) ->
  vdepth step < n \/ vdepth step = 0 ->
  total (_execute_switch_step py_eval py_eval_effect rec step).
Proof.
  intros Hrec Hstep. unfold _execute_switch_step.
  apply total_bind_lift. intros cases Hcases.
  apply total_bind_lift. intros l Hl.
  apply (total_switch_cases rec n); [exact Hrec|].
  intros c Hc.
  destruct step as [k|l'|d]; try discriminate Hcases.
  injection Hcases as <-.
  assert (Hd : vdepth (VDict d) < n) by (destruct Hstep as [H|H]; [exact H|discriminate H]).
  apply (vdepth_field d "cases") in Hd.
  destruct (vdepth_iter _ c l Hl Hc); lia.
Qed.

Lemma total_steps_loop (rec : value -> M unit) (n : nat) (steps : list value) :
  (forall v, vdepth v < n -> total (rec v)) ->
  (forall step, In step steps -> vdepth step < n \/ vdepth step = 0) ->
  total (loop rec steps).
Proof.
  intros Hrec. induction steps as [|step steps IH]; intros Hsteps; simpl.
  - apply total_ret.
  - assert (IH' : total (loop rec steps)).
    { apply IH. intros st Hst. apply Hsteps. right. exact Hst. }
    apply total_bind; [apply total_lift|intros id].
    apply total_bind; [apply total_lift|intros ty].
    repeat apply total_if; auto with total.
    + apply total_bind; [apply total_skill_step|auto].
    + apply total_bind; [apply total_script_step|auto].
    + apply total_bind; [|auto].
      apply (total_switch_step rec n); [exact Hrec|].
      apply Hsteps. left. reflexivity.
Qed.

(** With more fuel than the depth of the step sequence, [_execute_steps]
    returns or raises. *)
Lemma execute_steps_total (fuel : nat) (steps : value) :
  vdepth steps < fuel -> total (run fuel steps).
Proof.
  revert steps. induction fuel as [|fuel IH]; intros steps Hfuel; [lia|].
  simpl. apply total_bind_lift. intros l Hl.
  apply (total_steps_loop _ fuel); [exact IH|].
  intros step Hstep.
  destruct (vdepth_iter _ step l Hl Hstep); [left; lia|right; assumption].
Qed.

(** [execute_flow] always returns an outcome. *)
Lemma execute_flow_total (flow_name : string) (input_data : pydict) :
  exists out,
    execute_flow py_eval py_eval_effect orchestrate_skills self flow_name input_data
    = Some out.
Proof.
  unfold execute_flow.
  destruct (flows_get (flows self) flow_name) as [flow|]; [|eexists; reflexivity].
  set (steps := dict_get_default flow "steps" (VList [])).
  pose proof (execute_steps_total (fuel_for steps) steps
                (Nat.lt_succ_diag_r _) (mkState input_data [])) as H.
  destruct (run _ _ _) as [[[[]|e] s]|]; [eexists; reflexivity ..|congruence].
Qed.

End Termination.

(** ** Unknown flows *)

(** C9, as the code has it.  For a flow name that is not in the registry,
    [execute_flow] returns (it does not raise) an outcome made of an error
    message and the status [failed] and of nothing else: it has no result
    list, no flow name and no context, and it is the same whatever the
    input, the skill service, the script handlers and the evaluator are,
    none of which is used. *)
Theorem unknown_flow_fails (py_eval : string -> pydict -> res value)
    (py_eval_effect : string -> pydict -> pydict)
    (orchestrate_skills : OrchestrateSkills) (self : FlowRunner)
    (flow_name : string) (input_data : pydict) :
  flows_get (flows self) flow_name = None ->
  exists out,
    execute_flow py_eval py_eval_effect orchestrate_skills self flow_name input_data
    = Some out
    /\ out = VDict [(SStr "error", VStr ("Flow " ++ flow_name ++ " not found"));
                    (SStr "status", VStr "failed")]
    /\ field out "status" = Some (VStr "failed")
    /\ field out "results" = None
    /\ field out "flow" = None
    /\ field out "final_context" = None
    /\ forall py_eval' py_eval_effect' skills' handlers' input_data',
         execute_flow py_eval' py_eval_effect' skills'
           {| flows := flows self; script_handlers := handlers' |}
           flow_name input_data' = Some out.
Proof.
  intros H. eexists. unfold execute_flow. simpl. rewrite H.
  repeat split; reflexivity.
Qed.

(** C9 as it is stated does not hold: the outcome for an unknown flow has
    no result list at all, neither an empty one nor one that holds the
    error, unlike the outcome of a run that failed. *)
Lemma unknown_flow_has_no_result_list :
  exists out,
    execute_flow Expr.eval_restricted Expr.no_effect Tests.no_skills Tests.runner
      "NoSuchFlow" Tests.input_data = Some out
    /\ field out "status" = Some (VStr "failed")
    /\ forall results, field out "results" <> Some (VList results).
Proof.
  eexists. split; [reflexivity|]. split; [reflexivity|].
  intros results. discriminate.
Qed.

(** ** The result log and the final context *)

(** The relation [selects] keeps the order: two steps cannot be taken in
    the order opposite to their declaration. *)
Example selects_keeps_order :
  ~ selects [VDict Tests.script_step; VDict Tests.wait_step]
            [Tests.wait_step; Tests.script_step].
Proof.
  intros H.
  repeat match goal with
         | H : selects _ _ |- _ => inversion H; clear H; subst; try discriminate
         end.
Qed.

Lemma num_cmp_eq_trans (x y z : Z * nat) :
  num_cmp x y = Eq -> num_cmp y z = Eq -> num_cmp x z = Eq.
Proof.
  destruct x as [m1 e1], y as [m2 e2], z as [m3 e3]. unfold num_cmp.
  rewrite !Z.compare_eq_iff. intros H1 H2.
  assert (Hpos : (0 < 10 ^ Z.of_nat e2)%Z) by (apply Z.pow_pos_nonneg; lia).
  apply (Z.mul_reg_r _ _ (10 ^ Z.of_nat e2)%Z); [lia|].
  transitivity (m1 * 10 ^ Z.of_nat e2 * 10 ^ Z.of_nat e3)%Z; [ring|].
  rewrite H1.
  transitivity (m2 * 10 ^ Z.of_nat e3 * 10 ^ Z.of_nat e1)%Z; [ring|].
  rewrite H2. ring.
Qed.

Lemma key_eqb_trans (a b c : scalar) :
  key_eqb a b = true -> key_eqb b c = true -> key_eqb a c = true.
Proof.
  unfold key_eqb.
  destruct (num_of a) as [x|] eqn:Ea, (num_of b) as [y|] eqn:Eb,
           (num_of c) as [z|] eqn:Ec; try discriminate.
  - destruct (num_cmp x y) eqn:H1; try discriminate.
    destruct (num_cmp y z) eqn:H2; try discriminate.
    rewrite (num_cmp_eq_trans x y z H1 H2). reflexivity.
  - destruct a, b; try discriminate; destruct c; try discriminate; auto.
    intros H1 H2. apply String.eqb_eq in H1, H2. subst. apply String.eqb_refl.
Qed.

Lemma dict_mem_set (d : pydict) (k k' : scalar) (v : value) :
  dict_mem (dict_set d k v) k' = dict_mem d k' || key_eqb k k'.
Proof.
  unfold dict_mem. induction d as [|[k0 v0] d IH]; simpl.
  - destruct (key_eqb k k'); reflexivity.
  - destruct (key_eqb k0 k) eqn:E0; simpl.
    + destruct (key_eqb k0 k') eqn:E1; [reflexivity|].
      destruct (key_eqb k k') eqn:E2; [|rewrite orb_false_r; reflexivity].
      rewrite (key_eqb_trans k0 k k' E0 E2) in E1. discriminate.
    + destruct (key_eqb k0 k'); [reflexivity|exact IH].
Qed.

Lemma extends_refl (quiet : Prop) (s : state) : extends quiet [] s s.
Proof.
  split; [|split]; simpl.
  - symmetry. apply app_nil_r.
  - intros _ k. symmetry. apply orb_false_r.
  - constructor.
Qed.

Lemma extends_trans (quiet : Prop) (t1 t2 : list (pydict * value)) (s s1 s2 : state) :
  extends quiet t1 s s1 -> extends quiet t2 s1 s2 -> extends quiet (t1 ++ t2) s s2.
Proof.
  intros (R1 & K1 & F1) (R2 & K2 & F2). split; [|split].
  - rewrite R2, R1, map_app, app_assoc. reflexivity.
  - intros Hquiet k. rewrite (K2 Hquiet), (K1 Hquiet). unfold success_keys.
    rewrite flat_map_app, existsb_app, orb_assoc. reflexivity.
  - apply Forall_app. split; assumption.
Qed.

(** The evaluation of a condition appends nothing; it keeps the keys of
    the context when the evaluator does. *)
Lemma extends_condition (py_eval_effect : string -> pydict -> pydict)
    (condition : value) (s : state) :
  extends (keeps_keys py_eval_effect) [] s
          (mkState (_evaluate_condition_effect py_eval_effect condition (context s))
                   (results s)).
Proof.
  split; [|split]; simpl.
  - symmetry. apply app_nil_r.
  - intros Hkeys k. rewrite orb_false_r. unfold _evaluate_condition_effect.
    destruct (rewrite_condition _ _) as [[[| | | |text]| |]|e]; try reflexivity.
    apply Hkeys.
  - constructor.
Qed.

Lemma selects_none (steps : list value) : selects steps [].
Proof.
  induction steps; constructor; assumption.
Qed.

(** Case analysis on an innermost [match] of a hypothesis. *)
Ltac break_match_in H :=
  match type of H with
  | context [match ?x with _ => _ end] =>
      lazymatch x with
      | context [match _ with _ => _ end] => fail
      | _ => destruct x eqn:?
      end
  end.

Ltac in_list := simpl; repeat (first [left; reflexivity | right]).

(** A step that writes [result] under [key] and appends its [success]
    record. *)
Lemma extends_success (quiet : Prop) (step : pydict) (key : scalar) (result : value)
    (s : state) :
  dict_get_default step "output" (step_id step) = VS key ->
  extends quiet [(step, record_success (step_id step) result)] s
          (mkState (dict_set (context s) key result)
                   (results s ++ [record_success (step_id step) result])).
Proof.
  intros Hkey. split; [reflexivity|]. split; simpl.
  - intros _ k. unfold success_keys, output_key. simpl. rewrite Hkey. simpl.
    rewrite dict_mem_set, orb_false_r. reflexivity.
  - constructor; [|constructor]. split; [reflexivity|].
    exists "success". simpl. auto.
Qed.

(** A step that appends a record that is not a [success]. *)
Lemma extends_no_write (quiet : Prop) (step : pydict) (r : value) (s : state) :
  record_of step r -> is_success r = false ->
  extends quiet [(step, r)] s (mkState (context s) (results s ++ [r])).
Proof.
  intros Hrec Hs. split; [reflexivity|]. split; simpl.
  - intros _ k. unfold success_keys. simpl. rewrite Hs. simpl.
    rewrite orb_false_r. reflexivity.
  - constructor; [exact Hrec|constructor].
Qed.

(** A record that is not a [success], appended by a step. *)
Ltac other_record :=
  eexists; split; [right; eexists; reflexivity|];
  apply extends_no_write;
  [split; [reflexivity|eexists; split; [reflexivity|in_list]] | reflexivity].

(** The key that a successful step wrote is its output key. *)
Ltac written_key :=
  simpl py_get in *;
  repeat match goal with
         | H : Ok _ = Ok _ |- _ => injection H as <-
         end;
  unfold step_id;
  match goal with
  | H : to_key ?v = Ok _ |- _ =>
      destruct v; simpl in H; [injection H as ->; reflexivity|discriminate H ..]
  end.

Section Traces.

Variable py_eval : string -> pydict -> res value.
Variable py_eval_effect : string -> pydict -> pydict.
Variable orchestrate_skills : OrchestrateSkills.
Variable self : FlowRunner.

Local Abbreviation loop := (steps_loop py_eval py_eval_effect orchestrate_skills self).
Local Abbreviation run := (_execute_steps py_eval py_eval_effect orchestrate_skills self).
Local Abbreviation quiet := (keeps_keys py_eval_effect).
Local Abbreviation extends := (extends quiet).
Local Abbreviation traced := (traced quiet).

Lemma skill_step_trace (step : pydict) (s s' : state) (r : res unit) :
  _execute_skill_step orchestrate_skills (VDict step) s = Some (r, s') ->
  exists trace,
    (trace = [] \/ exists rec, trace = [(step, rec)]) /\ extends trace s s'.
Proof.
  unfold _execute_skill_step, output_var. unfold_monad. simpl py_get. cbv iota.
  intros H.
  repeat break_match_in H; injection H as <- <-;
    try (exists []; split; [left; reflexivity|apply extends_refl]).
  - eexists. split; [right; eexists; reflexivity|].
    apply extends_success. written_key.
  - other_record.
Qed.

Lemma script_step_trace (step : pydict) (s s' : state) (r : res unit) :
  _execute_script_step self (VDict step) s = Some (r, s') ->
  exists trace,
    (trace = [] \/ exists rec, trace = [(step, rec)]) /\ extends trace s s'.
Proof.
  unfold _execute_script_step, output_var. unfold_monad. simpl py_get. cbv iota.
  intros H.
  repeat break_match_in H; try discriminate H; injection H as <- <-;
    try (exists []; split; [left; reflexivity|apply extends_refl]).
  - eexists. split; [right; eexists; reflexivity|].
    apply extends_success. written_key.
  - other_record.
  - other_record.
  - other_record.
  - other_record.
  - other_record.
Qed.

(** The switch step: the steps run are taken from the actions of one of
    its cases. *)
Lemma switch_cases_trace (rec : value -> M unit) (all cases : list value)
    (s s' : state) (r : res unit) :
  (forall v, traced (steps_of v) (rec v)) ->
  (forall c, In c cases -> In c all) ->
  switch_cases py_eval py_eval_effect rec cases s = Some (r, s') ->
  exists trace,
    (trace = []
     \/ exists case, In (VDict case) all
         /\ selects (steps_of (dict_get_default case "actions" (VList [])))
                    (map fst trace))
    /\ extends trace s s'.
Proof.
  intros Hrec. revert s. induction cases as [|case cases IH]; intros s Hall H; simpl in H.
  - injection H as <- <-. exists []. split; [left; reflexivity|apply extends_refl].
  - unfold bind at 1 in H. unfold lift at 1 in H.
    destruct case as [k|l|d]; simpl py_get in H; cbv iota in H;
      try (injection H as <- <-; exists [];
           split; [left; reflexivity|apply extends_refl]).
    unfold bind at 1 in H.
    assert (Htest : exists s1,
               extends [] s s1
               /\ (if py_eq_str (dict_get_default d "condition" VNone) "else"
                   then ret (VBool true)
                   else call_evaluate_condition py_eval py_eval_effect
                          (dict_get_default d "condition" VNone)) s
                  = Some (if py_eq_str (dict_get_default d "condition" VNone) "else"
                          then Ok (VBool true)
                          else _evaluate_condition py_eval
                                 (dict_get_default d "condition" VNone) (context s),
                          s1)).
    { destruct (py_eq_str _ "else").
      - exists s. split; [apply extends_refl|reflexivity].
      - eexists. split; [apply extends_condition|reflexivity]. }
    destruct Htest as (s1 & Hext1 & Htest). rewrite Htest in H. clear Htest.
    destruct (if py_eq_str _ "else" then _ else _) as [cond_value|e].
    + destruct (py_truthy cond_value).
      * unfold bind at 1 in H. unfold lift at 1 in H.
        apply Hrec in H as (trace & Hsel & Hext).
        exists trace. split; [|exact (extends_trans _ [] trace _ _ _ Hext1 Hext)].
        right. exists d. split; [apply Hall; left; reflexivity|exact Hsel].
      * destruct (IH s1) as (trace & Hsel & Hext); [| exact H |].
        -- intros c Hc. apply Hall. right. exact Hc.
        -- exists trace. split; [exact Hsel|].
           exact (extends_trans _ [] trace _ _ _ Hext1 Hext).
    + injection H as <- <-. exists [].
      split; [left; reflexivity|exact Hext1].
Qed.


Lemma switch_step_trace (rec : value -> M unit) (step : pydict)
    (s s' : state) (r : res unit) :
  (forall v, traced (steps_of v) (rec v)) ->
  _execute_switch_step py_eval py_eval_effect rec (VDict step) s = Some (r, s') ->
  exists trace,
    (trace = []
     \/ exists case,
         In (VDict case) (steps_of (dict_get_default step "cases" (VList [])))
         /\ selects (steps_of (dict_get_default case "actions" (VList [])))
                    (map fst trace))
    /\ extends trace s s'.
Proof.
  intros Hrec H. unfold _execute_switch_step in H.
  unfold bind at 1 in H. unfold lift at 1 in H. simpl py_get in H. cbv iota in H.
  unfold bind at 1 in H. unfold lift at 1 in H. unfold steps_of.
  destruct (py_iter (dict_get_default step "cases" (VList []))) as [cases|e].
  - apply (switch_cases_trace rec cases cases s s' r Hrec); auto.
  - injection H as <- <-. exists [].
    split; [left; reflexivity|apply extends_refl].
Qed.

(** After a step that ran [t1], the rest of the sequence. *)
Lemma traced_then (step : value) (rest : list value) (m : M unit)
    (k : M unit) (s s' : state) (r : res unit) :
  (forall s1 r1 s1', m s1 = Some (r1, s1') ->
     exists t1, extends t1 s1 s1'
                /\ forall t2, selects rest t2 ->
                              selects (step :: rest) (map fst t1 ++ t2)%list) ->
  traced rest k ->
  bind m (fun _ => k) s = Some (r, s') ->
  exists trace, selects (step :: rest) (map fst trace) /\ extends trace s s'.
Proof.
  intros Hm Hk H. unfold bind in H.
  destruct (m s) as [[[[]|e] s1]|] eqn:E; [| |discriminate H].
  - apply Hm in E as (t1 & Hext1 & Hsel1).
    apply Hk in H as (t2 & Hsel2 & Hext2).
    exists (t1 ++ t2)%list. split.
    + rewrite map_app. apply Hsel1, Hsel2.
    + apply (extends_trans _ _ _ _ _ _ Hext1 Hext2).
  - injection H as <- <-.
    apply Hm in E as (t1 & Hext1 & Hsel1).
    exists t1. split; [|exact Hext1].
    rewrite <- (app_nil_r (map fst t1)). apply Hsel1, selects_none.
Qed.

Lemma steps_loop_traced (rec : value -> M unit) (steps : list value) :
  (forall v, traced (steps_of v) (rec v)) ->
  traced steps (loop rec steps).
Proof.
  intros Hrec. induction steps as [|step steps IH]; intros s r s' H; simpl in H.
  - injection H as <- <-. exists []. split; [constructor|apply extends_refl].
  - unfold bind at 1 in H. unfold lift at 1 in H.
    destruct step as [k|l|step]; simpl py_get in H; cbv iota in H;
      try (injection H as <- <-; exists [];
           split; [apply selects_none|apply extends_refl]).
    unfold bind at 1 in H. unfold lift at 1 in H.
    fold (step_type step) in H. fold (step_id step) in H.
    destruct (py_eq_str (step_type step) "skill") eqn:Eskill;
      [|destruct (py_eq_str (step_type step) "script") eqn:Escript;
        [|destruct (py_eq_str (step_type step) "switch") eqn:Eswitch;
          [|destruct (py_eq_str (step_type step) "wait_for_event") eqn:Ewait]]].
    + eapply traced_then; [|exact IH|exact H]. intros s1 r1 s1' E.
      apply skill_step_trace in E as (t1 & [->|(rec0 & ->)] & Hext).
      * exists []. split; [exact Hext|]. intros t2 Ht2. apply selects_skip, Ht2.
      * eexists. split; [exact Hext|]. intros t2 Ht2. simpl.
        apply selects_leaf; [|exact Ht2].
        unfold appends_record. rewrite Eskill. reflexivity.
    + eapply traced_then; [|exact IH|exact H]. intros s1 r1 s1' E.
      apply script_step_trace in E as (t1 & [->|(rec0 & ->)] & Hext).
      * exists []. split; [exact Hext|]. intros t2 Ht2. apply selects_skip, Ht2.
      * eexists. split; [exact Hext|]. intros t2 Ht2. simpl.
        apply selects_leaf; [|exact Ht2].
        unfold appends_record. rewrite Escript, orb_true_r. reflexivity.
    + eapply traced_then; [|exact IH|exact H]. intros s1 r1 s1' E.
      apply (switch_step_trace rec step s1 s1' r1 Hrec)
        in E as (t1 & [->|(case & Hin & Hsel)] & Hext).
      * exists []. split; [exact Hext|]. intros t2 Ht2. apply selects_skip, Ht2.
      * exists t1. split; [exact Hext|]. intros t2 Ht2.
        apply (selects_switch step case steps _ _ Eswitch Hin Hsel Ht2).
    + unfold results_append in H. injection H as <- <-.
      exists [(step, record_paused (step_id step))]. split.
      * simpl map. apply selects_leaf; [|apply selects_none].
        unfold appends_record. rewrite Ewait, !orb_true_r. reflexivity.
      * apply extends_no_write; [|reflexivity].
        split; [reflexivity|]. exists "paused". split; [reflexivity|in_list].
    + apply IH in H as (t & Hsel & Hext).
      exists t. split; [apply selects_skip, Hsel|exact Hext].
Qed.

(** The records that a run of a step sequence appends come from steps
    taken from it in declared order, and the context gains the output keys
    of the successful ones. *)
Lemma execute_steps_traced (fuel : nat) (steps : value) :
  traced (steps_of steps) (run fuel steps).
Proof.
  revert steps. induction fuel as [|fuel IH]; intros steps s r s' H;
    [discriminate H|].
  simpl in H. unfold bind at 1 in H. unfold lift at 1 in H. unfold steps_of.
  destruct (py_iter steps) as [l|e].
  - apply (steps_loop_traced _ l IH s r s' H).
  - injection H as <- <-. exists []. split; [constructor|apply extends_refl].
Qed.


End Traces.


(** ** Variable resolution on templates *)

Lemma append_assoc (a b c : string) : (a ++ b) ++ c = a ++ (b ++ c).
Proof. induction a as [|x a IH]; simpl; [reflexivity|rewrite IH; reflexivity]. Qed.

Lemma prefix_cons (a b : ascii) (p s : string) :
  prefix (String a p) (String b s) = Ascii.eqb a b && prefix p s.
Proof.
  simpl. destruct (ascii_dec a b) as [->|Hne].
  - rewrite Ascii.eqb_refl. reflexivity.
  - apply Ascii.eqb_neq in Hne. rewrite Hne. reflexivity.
Qed.

Lemma prefix_append (p s : string) : prefix p (p ++ s) = true.
Proof.
  induction p as [|a p IH]; [destruct s; reflexivity|].
  simpl append. rewrite prefix_cons, Ascii.eqb_refl. exact IH.
Qed.

Lemma brace_free_cons (c : ascii) (s : string) :
  brace_free (String c s) = true -> is_brace c = false /\ brace_free s = true.
Proof.
  unfold brace_free. simpl. rewrite negb_orb. intros H.
  apply andb_true_iff in H as [H1 H2]. apply negb_true_iff in H1. auto.
Qed.

Lemma is_brace_open (c : ascii) : is_brace c = false -> Ascii.eqb "{" c = false.
Proof.
  unfold is_brace. intros H. apply orb_false_elim in H as [H _].
  rewrite Ascii.eqb_sym. exact H.
Qed.

Lemma is_brace_close (c : ascii) : is_brace c = false -> Ascii.eqb "}" c = false.
Proof.
  unfold is_brace. intros H. apply orb_false_elim in H as [_ H].
  rewrite Ascii.eqb_sym. exact H.
Qed.

Section Scan.

(** The search for one placeholder [{{name}}]. *)
Variable name new : string.
Hypothesis name_plain : brace_free name = true.

Local Abbreviation old := ("{{" ++ name ++ "}}").
Local Abbreviation scan := (Str.replace_scan old new 0).

Lemma scan_cons (c : ascii) (s : string) :
  scan (String c s)
  = if prefix old (String c s)
    then new ++ Str.replace_scan old new (String.length old - 1) s
    else String c (scan s).
Proof. reflexivity. Qed.

Lemma scan_skip (a rest : string) :
  Str.replace_scan old new (String.length a) (a ++ rest) = scan rest.
Proof.
  induction a as [|c a IH]; [reflexivity|exact IH].
Qed.

(** At the placeholder itself. *)
Lemma scan_hole_same (rest : string) :
  scan (old ++ rest) = new ++ scan rest.
Proof.
  change (old ++ rest) with (String "{" (("{" ++ name ++ "}}") ++ rest)).
  rewrite scan_cons.
  change (String "{" (("{" ++ name ++ "}}") ++ rest)) with (old ++ rest).
  rewrite prefix_append.
  change (String.length old - 1) with (String.length ("{" ++ name ++ "}}") - 0).
  rewrite Nat.sub_0_r, scan_skip. reflexivity.
Qed.

(** Through a character that is not a brace. *)
Lemma scan_char (c : ascii) (rest : string) :
  Ascii.eqb "{" c = false -> scan (String c rest) = String c (scan rest).
Proof.
  intros H. rewrite scan_cons.
  change old with (String "{" ("{" ++ name ++ "}}")).
  rewrite prefix_cons, H. reflexivity.
Qed.

Lemma scan_text (t rest : string) :
  brace_free t = true -> scan (t ++ rest) = t ++ scan rest.
Proof.
  induction t as [|c t IH]; intros H; [reflexivity|].
  apply brace_free_cons in H as [Hc Ht].
  simpl append. rewrite scan_char by (apply is_brace_open, Hc).
  rewrite IH by exact Ht. reflexivity.
Qed.

(** Two plain names that are followed by [}}] at the same place are
    equal. *)
Lemma prefix_name (other rest : string) :
  brace_free other = true ->
  prefix (name ++ "}}") (other ++ "}}" ++ rest) = true -> name = other.
Proof.
  revert other name_plain. induction name as [|c n IH]; intros other Hn Ho H.
  - destruct other as [|d other]; [reflexivity|].
    apply brace_free_cons in Ho as [Hd _].
    simpl append in H. rewrite prefix_cons, (is_brace_close d Hd) in H.
    discriminate H.
  - apply brace_free_cons in Hn as [Hc Hn].
    destruct other as [|d other].
    + simpl append in H. rewrite prefix_cons in H.
      apply andb_true_iff in H as [H _].
      rewrite Ascii.eqb_sym, (is_brace_close c Hc) in H. discriminate H.
    + apply brace_free_cons in Ho as [Hd Ho].
      simpl append in H. rewrite prefix_cons in H.
      apply andb_true_iff in H as [H1 H2].
      apply Ascii.eqb_eq in H1. subst d.
      f_equal. apply (IH other Hn Ho H2).
Qed.

(** At another placeholder. *)
Lemma scan_hole_other (other rest : string) :
  brace_free other = true -> other <> name ->
  scan (("{{" ++ other ++ "}}") ++ rest) = ("{{" ++ other ++ "}}") ++ scan rest.
Proof.
  intros Ho Hne.
  change (("{{" ++ other ++ "}}") ++ rest)
    with (String "{" (String "{" ((other ++ "}}") ++ rest))).
  rewrite scan_cons.
  change old with (String "{" (String "{" (name ++ "}}"))).
  rewrite !prefix_cons. simpl andb.
  rewrite append_assoc.
  destruct (prefix (name ++ "}}") (other ++ "}}" ++ rest)) eqn:E.
  - apply prefix_name in E; [congruence|exact Ho].
  - change (String "{" (String "{" (name ++ "}}"))) with old.
    rewrite scan_cons.
    change old with (String "{" (String "{" (name ++ "}}"))).
    rewrite prefix_cons. simpl andb.
    assert (Hsecond : prefix (String "{" (name ++ "}}")) (other ++ "}}" ++ rest) = false).
    { destruct other as [|d other]; simpl append; rewrite prefix_cons.
      - reflexivity.
      - apply brace_free_cons in Ho as [Hd _].
        rewrite (is_brace_open d Hd). reflexivity. }
    cbn [append] in Hsecond |- *. rewrite Hsecond.
    change (String "{" (String "{" (name ++ "}}"))) with old.
    rewrite scan_text by exact Ho.
    rewrite !scan_char by reflexivity.
    rewrite append_assoc. reflexivity.
Qed.

End Scan.

Lemma replace_hole (name new s : string) :
  Str.replace ("{{" ++ name ++ "}}") new s
  = Str.replace_scan ("{{" ++ name ++ "}}") new 0 s.
Proof. reflexivity. Qed.

(** Replacing [{{name}}] in a plain template fills the placeholders of
    that name and touches nothing else. *)
Lemma replace_render (name new : string) (segs : list segment) :
  brace_free name = true ->
  plain_template segs ->
  Str.replace ("{{" ++ name ++ "}}") new (render segs)
  = render (map (fill_one name new) segs).
Proof.
  intros Hname Hsegs. rewrite replace_hole.
  induction Hsegs as [|[t|n] segs Hseg _ IH]; cbn [render render_segment map fill_one].
  - reflexivity.
  - rewrite scan_text by assumption. rewrite IH. reflexivity.
  - destruct (String.eqb name n) eqn:E.
    + apply String.eqb_eq in E. subst n.
      rewrite scan_hole_same, IH. reflexivity.
    + apply String.eqb_neq in E.
      rewrite scan_hole_other by (try assumption; congruence).
      rewrite IH. reflexivity.
Qed.

Lemma fill_one_plain (name new : string) (segs : list segment) :
  (In (Hole name) segs -> brace_free new = true) ->
  plain_template segs -> plain_template (map (fill_one name new) segs).
Proof.
  intros Hnew Hsegs. induction Hsegs as [|[t|n] segs Hseg _ IH]; simpl.
  - constructor.
  - constructor; [assumption|]. apply IH. intros H. apply Hnew. right. exact H.
  - constructor; [|apply IH; intros H; apply Hnew; right; exact H].
    destruct (String.eqb name n) eqn:E; [|assumption].
    apply String.eqb_eq in E. subst n. apply Hnew. left. reflexivity.
Qed.

(** Filling placeholders adds none. *)
Lemma in_hole_fill_one (name new other : string) (segs : list segment) :
  In (Hole other) (map (fill_one name new) segs) -> In (Hole other) segs.
Proof.
  induction segs as [|[t|n] segs IH]; simpl; [tauto| |].
  - intros [H|H]; [discriminate H|right; exact (IH H)].
  - destruct (String.eqb name n); intros [H|H];
      [discriminate H|right; exact (IH H)|left; exact H|right; exact (IH H)].
Qed.

Lemma fold_left_flat_map {A B C} (f : A -> B -> A) (g : C -> list B)
    (l : list C) (a : A) :
  fold_left f (flat_map g l) a = fold_left (fun a x => fold_left f (g x) a) l a.
Proof.
  revert a. induction l as [|x l IH]; intros a; simpl; [reflexivity|].
  rewrite fold_left_app. apply IH.
Qed.

Lemma fold_left_map {A B C} (f : A -> B -> A) (g : C -> B) (l : list C) (a : A) :
  fold_left f (map g l) a = fold_left (fun a x => f a (g x)) l a.
Proof.
  revert a. induction l as [|x l IH]; intros a; simpl; [reflexivity|apply IH].
Qed.

Lemma fold_left_ext {A B} (f g : A -> B -> A) (l : list B) (a : A) :
  (forall a x, f a x = g a x) -> fold_left f l a = fold_left g l a.
Proof.
  intros H. revert a. induction l as [|x l IH]; intros a; simpl; [reflexivity|].
  rewrite H. apply IH.
Qed.

(** The loop body of the resolver makes the replacements of the
    placeholders that the entry defines, in order. *)
Lemma resolve_entry_placeholders (text : string) (entry : scalar * value) :
  resolve_entry text entry = fold_left replace_placeholder (placeholders_of entry) text.
Proof.
  destruct entry as [k v]. unfold resolve_entry, placeholders_of.
  rewrite fold_left_app.
  destruct v as [[| | | |]|l|sub]; simpl is_str_or_number; cbv iota; simpl fold_left;
    try reflexivity.
  rewrite fold_left_map. apply fold_left_ext.
  intros a [sk sv]. unfold replace_placeholder. simpl fst. simpl snd.
  rewrite !append_assoc. reflexivity.
Qed.

Lemma resolve_fold_placeholders (context : pydict) (text : string) :
  fold_left resolve_entry context text
  = fold_left replace_placeholder (placeholders context) text.
Proof.
  unfold placeholders. rewrite fold_left_flat_map.
  apply fold_left_ext. intros a x. apply resolve_entry_placeholders.
Qed.

Lemma fill_with_nil (segs : list segment) : map (fill_with []) segs = segs.
Proof.
  induction segs as [|[t|n] segs IH]; simpl; [reflexivity|rewrite IH ..]; reflexivity.
Qed.

Lemma fill_with_cons (n t : string) (l : list (string * string)) (seg : segment) :
  fill_with l (fill_one n t seg) = fill_with ((n, t) :: l) seg.
Proof.
  destruct seg as [s|m]; simpl; [reflexivity|].
  destruct (String.eqb n m); reflexivity.
Qed.

(** The replacements made one after the other fill each placeholder with
    the text of the first definition of its name. *)
Lemma fold_replace_render (l : list (string * string)) (segs : list segment) :
  Forall (plain_for segs) l ->
  plain_template segs ->
  fold_left replace_placeholder l (render segs) = render (map (fill_with l) segs).
Proof.
  revert segs. induction l as [|[n t] l IH]; intros segs Hl Hsegs.
  - rewrite fill_with_nil. reflexivity.
  - inversion Hl as [|nt l' [Hn Ht] Hl']; subst. simpl in Hn, Ht.
    simpl fold_left. unfold replace_placeholder at 2. simpl fst. simpl snd.
    rewrite replace_render by assumption.
    rewrite IH.
    + rewrite map_map. f_equal. apply map_ext. intros seg. apply fill_with_cons.
    + apply Forall_forall. intros [m u] Hin.
      apply (proj1 (Forall_forall _ _) Hl') in Hin as [Hm Hu].
      split; [exact Hm|].
      intros H. apply Hu. apply (in_hole_fill_one n t (fst (m, u)) segs H).
    + apply fill_one_plain; assumption.
Qed.

Lemma fill_without_hole (l : list (string * string)) (segs : list segment) :
  has_hole segs = false -> map (fill_with l) segs = segs.
Proof.
  induction segs as [|[t|n] segs IH]; simpl; intros H.
  - reflexivity.
  - rewrite IH by exact H. reflexivity.
  - discriminate H.
Qed.

Lemma contains_cons (p : string) (c : ascii) (s : string) :
  Str.contains p (String c s)
  = if prefix p (String c s) then true else Str.contains p s.
Proof. reflexivity. Qed.

Lemma contains_append_r (p a s : string) :
  Str.contains p s = true -> Str.contains p (a ++ s) = true.
Proof.
  intros H. induction a as [|c a IH]; [exact H|].
  simpl append. rewrite contains_cons, IH.
  destruct (prefix p (String c (a ++ s))); reflexivity.
Qed.

Lemma contains_prefix (p s : string) : Str.contains p (p ++ s) = true.
Proof.
  pose proof (prefix_append p s) as H.
  destruct (p ++ s) as [|c t].
  - unfold Str.contains. rewrite H. reflexivity.
  - rewrite contains_cons, H. reflexivity.
Qed.

Lemma render_with_hole (segs : list segment) :
  has_hole segs = true ->
  Str.contains "{{" (render segs) = true /\ Str.contains "}}" (render segs) = true.
Proof.
  induction segs as [|[t|n] segs IH]; simpl has_hole; intros H.
  - discriminate H.
  - simpl in H. destruct (IH H) as [H1 H2].
    split; apply contains_append_r; assumption.
  - simpl render. split.
    + apply (contains_prefix "{{").
    + apply (contains_append_r "}}" "{{").
      rewrite append_assoc. apply contains_append_r. apply contains_prefix.
Qed.

(** On plain templates and contexts the resolver does what the spec
    says. *)
Lemma resolve_value_plain (segs : list segment) (context : pydict) :
  plain_template segs -> plain_context segs context ->
  resolve_value (VStr (render segs)) context = VStr (resolve_spec segs context).
Proof.
  intros Hsegs Hctx. unfold resolve_value, resolve_spec. simpl.
  change (fill context) with (fill_with (placeholders context)).
  destruct (has_hole segs) eqn:E.
  - destruct (render_with_hole segs E) as [-> ->]. simpl.
    rewrite resolve_fold_placeholders, fold_replace_render by assumption.
    reflexivity.
  - rewrite fill_without_hole by exact E.
    destruct (_ && _); [|reflexivity].
    rewrite resolve_fold_placeholders, fold_replace_render by assumption.
    rewrite fill_without_hole by exact E. reflexivity.
Qed.

(** [_resolve_variables] on a template map never fails: it returns a map
    with the same keys in the same order, and the values that are not
    strings, or are strings without [{{] or without [}}], are copied. *)
Lemma resolve_variables_total (template context : pydict) :
  exists resolved,
    _resolve_variables (VDict template) context = Ok resolved
    /\ map fst resolved = map fst template
    /\ Forall2 (fun kv kv' =>
                  (forall s, snd kv <> VStr s) -> snd kv' = snd kv)
               template resolved.
Proof.
  eexists. split; [reflexivity|]. split.
  - rewrite map_map. reflexivity.
  - induction template as [|[k v] template IH]; simpl; constructor; [|exact IH].
    simpl. intros Hv. destruct v as [[| | | |s]| |]; try reflexivity.
    destruct (Hv s). reflexivity.
Qed.

(** C8, as the code has it.  On a template map, [_resolve_variables]
    returns, without failing, a map with the same keys in which the
    values that are not strings are copied.  In a string value whose braces
    are those of its placeholders, each placeholder [{{key}}] or
    [{{key.subfield}}] is replaced by the textual form of the context value
    it names and the placeholders that name nothing are left as they are,
    provided the names that the context defines contain no brace and the
    textual forms put into this value contain none. *)
Theorem resolve_variables_on_plain_templates (template context : pydict) :
  exists resolved,
    _resolve_variables (VDict template) context = Ok resolved
    /\ Forall2 (fun kv kv' =>
                  fst kv' = fst kv
                  /\ ((forall s, snd kv <> VStr s) -> snd kv' = snd kv)
                  /\ (forall segs, snd kv = VStr (render segs) ->
                        plain_template segs -> plain_context segs context ->
                        snd kv' = VStr (resolve_spec segs context)))
               template resolved.
Proof.
  eexists. split; [reflexivity|].
  induction template as [|[k v] template IH]; simpl; constructor; [|exact IH].
  simpl. split; [reflexivity|]. split.
  - intros Hv. destruct v as [[| | | |s]| |]; try reflexivity.
    destruct (Hv s). reflexivity.
  - intros segs -> Hsegs Hctx. apply resolve_value_plain; assumption.
Qed.

(** C8 as it is stated does not hold.  The replacements are made one
    context entry after the other, on the text that the previous ones
    produced: the text put for [{{a}}] is
    searched for the placeholders of the later entries.  With
    [a = "{{b}}"] and [b = "X"], the template ["{{a}}"] resolves to ["X"]
    and not to the textual form of [a]; with the same entries in the other
    order it resolves to ["{{b}}"]. *)
Lemma resolve_variables_chains :
  _resolve_variables (VDict [(SStr "t", VStr (render [Hole "a"]))])
    Tests.chained_context
  = Ok [(SStr "t", VStr "X")]
  /\ resolve_spec [Hole "a"] Tests.chained_context = "{{b}}"
  /\ _resolve_variables (VDict [(SStr "t", VStr (render [Hole "a"]))])
       Tests.chained_context
     <> Ok [(SStr "t", VStr (resolve_spec [Hole "a"] Tests.chained_context))]
  /\ _resolve_variables (VDict [(SStr "t", VStr (render [Hole "a"]))])
       Tests.chained_context_reversed
     = Ok [(SStr "t", VStr "{{b}}")].
Proof.
  split; [reflexivity|]. split; [reflexivity|]. split; [|reflexivity].
  vm_compute. discriminate.
Qed.


(** ** Retries *)

Section RetryProperties.

Context {A : Type} {delay_t : Type}.
Variable mul : delay_t -> delay_t -> delay_t.
Variable time_sleep : delay_t -> res unit.
Variable func : nat -> res A.
Variable func_name : string.
Variable max_attempts : Z.
Variable backoff : delay_t.

Local Abbreviation loop :=
  (Recovery.retry_loop mul time_sleep func func_name max_attempts backoff).
Local Abbreviation delays := (Recovery.backoff_delays mul).
Local Abbreviation sleeps_well := (Recovery.sleeps_well time_sleep).

(** The loop until the first call that returns. *)
Lemma retry_loop_returns (i : nat) : forall remaining attempt current_delay slept result,
  (i < remaining)%nat ->
  (forall k, (k < i)%nat -> exists e, func (attempt + k) = Raise e) ->
  sleeps_well (delays current_delay backoff i) ->
  func (attempt + i) = Ok result ->
  loop remaining attempt current_delay slept
  = {| Recovery.retry_result := Ok result;
       Recovery.retry_calls := S (attempt + i);
       Recovery.retry_sleeps := (slept ++ delays current_delay backoff i)%list |}.
Proof.
  induction i as [|i IH];
    intros remaining attempt current_delay slept result Hlt Hfail Hsleep Hok.
  - destruct remaining as [|remaining]; [lia|].
    simpl. rewrite Nat.add_0_r in Hok. rewrite Hok.
    now rewrite Nat.add_0_r, app_nil_r.
  - destruct remaining as [|remaining]; [lia|].
    destruct (Hfail 0%nat ltac:(lia)) as [e He]. rewrite Nat.add_0_r in He.
    inversion Hsleep as [|d ds Hd Hds]; subst.
    simpl. rewrite He.
    destruct remaining as [|remaining]; [lia|].
    rewrite Hd, (IH (S remaining) (S attempt) _ _ result).
    + rewrite <- app_assoc. simpl. now rewrite Nat.add_succ_r.
    + lia.
    + intros k Hk. destruct (Hfail (S k) ltac:(lia)) as [e' He'].
      exists e'. now rewrite Nat.add_succ_r in He'.
    + exact Hds.
    + now rewrite Nat.add_succ_r in Hok.
Qed.

(** The loop when every call raises. *)
Lemma retry_loop_exhausted (n : nat) : forall attempt current_delay slept e,
  (forall k, (k < n)%nat -> exists e', func (attempt + k) = Raise e') ->
  sleeps_well (delays current_delay backoff n) ->
  func (attempt + n) = Raise e ->
  loop (S n) attempt current_delay slept
  = {| Recovery.retry_result := Raise e;
       Recovery.retry_calls := S (attempt + n);
       Recovery.retry_sleeps := (slept ++ delays current_delay backoff n)%list |}.
Proof.
  induction n as [|n IH]; intros attempt current_delay slept e Hfail Hsleep Hlast.
  - simpl. rewrite Nat.add_0_r in Hlast. rewrite Hlast.
    now rewrite Nat.add_0_r, app_nil_r.
  - destruct (Hfail 0%nat ltac:(lia)) as [e0 He0]. rewrite Nat.add_0_r in He0.
    inversion Hsleep as [|d ds Hd Hds]; subst.
    change (loop (S (S n)) attempt current_delay slept)
      with (match func attempt with
            | Ok result =>
                {| Recovery.retry_result := Ok result;
                   Recovery.retry_calls := S attempt;
                   Recovery.retry_sleeps := slept |}
            | Raise _ =>
                match time_sleep current_delay with
                | Ok _ =>
                    loop (S n) (S attempt) (mul current_delay backoff)
                         (slept ++ [current_delay])%list
                | Raise e' =>
                    {| Recovery.retry_result := Raise e';
                       Recovery.retry_calls := S attempt;
                       Recovery.retry_sleeps := slept |}
                end
            end).
    rewrite He0, Hd, (IH (S attempt) _ _ e).
    + rewrite <- app_assoc. simpl. now rewrite Nat.add_succ_r.
    + intros k Hk. destruct (Hfail (S k) ltac:(lia)) as [e' He'].
      exists e'. now rewrite Nat.add_succ_r in He'.
    + exact Hds.
    + now rewrite Nat.add_succ_r in Hlast.
Qed.

(** What the loop costs, whatever the function and [time.sleep] do. *)
Lemma retry_loop_effort (remaining : nat) : forall attempt current_delay slept,
  let run := loop remaining attempt current_delay slept in
  (remaining = 0%nat ->
     run = {| Recovery.retry_result :=
                Raise (Recovery.retry_exhausted func_name max_attempts);
              Recovery.retry_calls := attempt;
              Recovery.retry_sleeps := slept |}) /\
  ((0 < remaining)%nat ->
     exists k, (k < remaining)%nat /\
       Recovery.retry_calls run = S (attempt + k) /\
       Recovery.retry_sleeps run = (slept ++ delays current_delay backoff k)%list /\
       (Recovery.retry_result run = func (attempt + k)%nat
        \/ exists d e, time_sleep d = Raise e /\ Recovery.retry_result run = Raise e)).
Proof.
  induction remaining as [|remaining IH]; intros attempt current_delay slept run.
  - split; [reflexivity | lia].
  - split; [discriminate | intros _].
    subst run. simpl. destruct (func attempt) as [result|e] eqn:E.
    + exists 0%nat. simpl. rewrite Nat.add_0_r, app_nil_r.
      repeat split; [lia | now left].
    + destruct remaining as [|remaining].
      * exists 0%nat. simpl. rewrite Nat.add_0_r, app_nil_r.
        repeat split; [lia | now left].
      * destruct (time_sleep current_delay) as [[]|e'] eqn:Hsleep.
        -- destruct (IH (S attempt) (mul current_delay backoff)
                       (slept ++ [current_delay])%list) as [_ IH'].
           destruct (IH' ltac:(lia)) as (k & Hk & Hcalls & Hsleeps & Hres).
           exists (S k). rewrite Nat.add_succ_r.
           repeat split; [lia | exact Hcalls | | exact Hres].
           rewrite Hsleeps, <- app_assoc. reflexivity.
        -- exists 0%nat. simpl. rewrite Nat.add_0_r, app_nil_r.
           repeat split; [lia |]. right. now exists current_delay, e'.
Qed.

(** X1: a call of a function under [retry] returns what the first
    successful attempt returned, when that attempt is among the first
    [max_attempts] (and [time.sleep] accepts the delays): the function has
    then been called once more than it failed, and before each new attempt
    the wrapper slept, first [delay], then [backoff] times as long each
    time. *)
Theorem retry_returns_first_success (delay : delay_t) (i : nat) (result : A) :
  (i < Z.to_nat max_attempts)%nat ->
  Recovery.fails_before func i ->
  sleeps_well (delays delay backoff i) ->
  func i = Ok result ->
  Recovery.retry mul time_sleep max_attempts delay backoff func_name func
  = {| Recovery.retry_result := Ok result;
       Recovery.retry_calls := S i;
       Recovery.retry_sleeps := delays delay backoff i |}.
Proof.
  intros Hlt Hfail Hsleep Hok. unfold Recovery.retry.
  now rewrite (retry_loop_returns i _ 0%nat delay [] result).
Qed.

(** X2: when each of the [max_attempts] attempts raises, the wrapper
    raises the exception of the last attempt (not the first one, and not
    its own "failed after N attempts" exception), after exactly
    [max_attempts] calls and [max_attempts - 1] sleeps. *)
Theorem retry_reraises_last_failure (delay : delay_t) (e : pyexc) :
  (0 < max_attempts)%Z ->
  Recovery.fails_before func (Z.to_nat max_attempts) ->
  sleeps_well (delays delay backoff (Z.to_nat max_attempts - 1)) ->
  func (Z.to_nat max_attempts - 1)%nat = Raise e ->
  Recovery.retry mul time_sleep max_attempts delay backoff func_name func
  = {| Recovery.retry_result := Raise e;
       Recovery.retry_calls := Z.to_nat max_attempts;
       Recovery.retry_sleeps := delays delay backoff (Z.to_nat max_attempts - 1) |}.
Proof.
  intros Hpos Hfail Hsleep Hlast. unfold Recovery.retry.
  destruct (Z.to_nat max_attempts) as [|n] eqn:En; [lia|].
  replace (S n - 1)%nat with n in * by lia.
  rewrite (retry_loop_exhausted n 0%nat delay [] e);
    [reflexivity | | exact Hsleep | exact Hlast].
  intros k Hk. apply Hfail. lia.
Qed.

(** X3: whatever the function and [time.sleep] do, the wrapper calls the
    function at most [max_attempts] times, and has slept once between two
    calls with the delays of the exponential backoff.  It never calls the
    function exactly when [max_attempts] is zero or negative, and then the
    result is its own "failed after N attempts" exception; otherwise the
    result is what the last call returned or raised, or what [time.sleep]
    raised. *)
Theorem retry_effort (delay : delay_t) :
  let run := Recovery.retry mul time_sleep max_attempts delay backoff func_name func in
  (Recovery.retry_calls run <= Z.to_nat max_attempts)%nat /\
  Recovery.retry_sleeps run = delays delay backoff (Recovery.retry_calls run - 1) /\
  (Recovery.retry_calls run = 0%nat <-> (max_attempts <= 0)%Z) /\
  ((max_attempts <= 0)%Z ->
     Recovery.retry_result run = Raise (Recovery.retry_exhausted func_name max_attempts)) /\
  ((0 < max_attempts)%Z ->
     Recovery.retry_result run = func (Recovery.retry_calls run - 1)%nat
     \/ exists d e, time_sleep d = Raise e /\ Recovery.retry_result run = Raise e).
Proof.
  intros run. subst run. unfold Recovery.retry.
  destruct (retry_loop_effort (Z.to_nat max_attempts) 0%nat delay []) as [Hzero Hpos].
  destruct (Z.to_nat max_attempts) as [|n] eqn:En.
  - rewrite (Hzero eq_refl). simpl. repeat split; intros; try reflexivity; lia.
  - destruct (Hpos ltac:(lia)) as (k & Hk & Hcalls & Hsleeps & Hres).
    rewrite Hcalls, Hsleeps. cbn [Nat.add app].
    replace (S k - 1)%nat with k by lia.
    repeat split; intros; try reflexivity; try lia. exact Hres.
Qed.

End RetryProperties.

(** The body of [invoke_skill] never raises: it returns what
    [invoke_skill] of the model is. *)
Lemma invoke_skill_body_returns (self : OrchestrateSkills) (skill_name input_data : value) :
  Recovery.invoke_skill_body self skill_name input_data
  = Ok (invoke_skill self skill_name input_data).
Proof.
  unfold Recovery.invoke_skill_body, invoke_skill.
  destruct (negb (is_connected self)); [reflexivity|].
  unfold try_default, rbind.
  destruct (session_post self _ input_data) as [response|e]; [|reflexivity].
  destruct (status_code response =? 200)%Z; [|reflexivity].
  destruct (json response); reflexivity.
Qed.

(** X4: the [@retry] decorator of [invoke_skill] never retries.  The body
    of [invoke_skill] catches every failure of the request (a transport
    error, a status other than 200, an answer that is not JSON) and
    returns [None], so it never raises: the decorated method returns what
    the first call of the body returns, after one call and without
    sleeping, also when the first request fails and a second one would
    succeed. *)
Theorem invoke_skill_is_never_retried {delay_t : Type} (mul : delay_t -> delay_t -> delay_t)
    (time_sleep : delay_t -> res unit) (one two : delay_t)
    (selves : nat -> OrchestrateSkills) (skill_name input_data : value) :
  (forall self, exists result,
     Recovery.invoke_skill_body self skill_name input_data = Ok result)
  /\ Recovery.retried_invoke_skill mul time_sleep one two selves skill_name input_data
     = {| Recovery.retry_result := Ok (invoke_skill (selves 0%nat) skill_name input_data);
          Recovery.retry_calls := 1;
          Recovery.retry_sleeps := [] |}.
Proof.
  split.
  - intros self. eexists. apply invoke_skill_body_returns.
  - unfold Recovery.retried_invoke_skill, Recovery.retry.
    rewrite (retry_loop_returns mul time_sleep _ "invoke_skill" 3 two 0 3%nat 0%nat one []
               (invoke_skill (selves 0%nat) skill_name input_data)).
    + reflexivity.
    + simpl. lia.
    + intros k Hk. lia.
    + constructor.
    + apply invoke_skill_body_returns.
Qed.

(** ** Circuit breakers *)

Section BreakerProperties.

Local Open Scope Z_scope.

Context {W time : Type}.
Variable time_time : W -> time * W.
Variable time_truthy : time -> bool.
Variable expired : time -> time -> Z -> bool.

Local Abbreviation CircuitBreaker := (Recovery.CircuitBreaker time).
Local Abbreviation let_through := (Recovery.let_through time_time time_truthy expired).
Local Abbreviation call := (Recovery.call time_time time_truthy expired).
Local Abbreviation calls := (Recovery.calls time_time time_truthy expired).
Local Abbreviation reachable := (Recovery.reachable time_time time_truthy expired).

(** A breaker that is not open lets the call through as it is. *)
Lemma let_through_not_open (self : CircuitBreaker) (w : W) :
  Recovery.cb_state self <> Recovery.open -> let_through self w = (Some self, w).
Proof.
  unfold Recovery.let_through. now destruct (Recovery.cb_state self).
Qed.

(** The breaker that [let_through] lets through is the same one, half-open when
    it was open. *)
Lemma let_through_some (self self' : CircuitBreaker) (w w' : W) :
  let_through self w = (Some self', w') ->
  self' = Recovery.set_state self
            (match Recovery.cb_state self with
             | Recovery.closed => Recovery.closed
             | _ => Recovery.half_open
             end).
Proof.
  unfold Recovery.let_through, Recovery.set_state.
  destruct self as [threshold timeout count last [| |]]; simpl.
  - now intros [= <- _].
  - destruct last as [last|]; [|discriminate].
    destruct (time_truthy last); [|discriminate].
    destruct (time_time w) as [now w1].
    destruct (expired now last timeout); [|discriminate].
    now intros [= <- _].
  - now intros [= <- _].
Qed.

(** A failure on a closed breaker below the threshold. *)
Lemma call_fails_closed {A} (self : CircuitBreaker) (func : W -> res A * W) (w : W) :
  Recovery.fails func ->
  Recovery.cb_state self = Recovery.closed ->
  exists e w',
    call self func w
    = (Raise e,
       {| Recovery.failure_threshold := Recovery.failure_threshold self;
          Recovery.timeout := Recovery.timeout self;
          Recovery.failure_count := Recovery.failure_count self + 1;
          Recovery.last_failure_time := Some (fst (time_time w'));
          Recovery.cb_state :=
            if Recovery.failure_count self + 1 >=? Recovery.failure_threshold self
            then Recovery.open else Recovery.closed |},
       snd (time_time w')).
Proof.
  intros Hfails Hclosed. destruct (Hfails w) as (e & w' & Hfunc).
  exists e, w'. unfold Recovery.call.
  rewrite let_through_not_open by (rewrite Hclosed; discriminate).
  rewrite Hfunc. destruct (time_time w') as [now w'']. simpl.
  destruct (Recovery.failure_count self + 1 >=? Recovery.failure_threshold self);
    simpl; now rewrite ?Hclosed.
Qed.

(** Failures in a row on a closed breaker, as long as the threshold is
    not passed. *)
Lemma calls_fail_closed {A} (funcs : list (W -> res A * W)) :
  forall (self : CircuitBreaker) (w : W),
  Forall Recovery.fails funcs ->
  Recovery.cb_state self = Recovery.closed ->
  Recovery.failure_count self + Z.of_nat (List.length funcs) <= Recovery.failure_threshold self ->
  Recovery.failure_count self < Recovery.failure_threshold self ->
  let self' := fst (calls self funcs w) in
  Recovery.failure_threshold self' = Recovery.failure_threshold self /\
  Recovery.timeout self' = Recovery.timeout self /\
  Recovery.failure_count self' = Recovery.failure_count self + Z.of_nat (List.length funcs) /\
  Recovery.cb_state self'
  = if Recovery.failure_count self' >=? Recovery.failure_threshold self
    then Recovery.open else Recovery.closed.
Proof.
  induction funcs as [|func funcs IH]; intros self w Hfails Hclosed Hle Hlt self'.
  - subst self'. simpl. rewrite Z.add_0_r, Hclosed.
    destruct (Z.geb_spec (Recovery.failure_count self) (Recovery.failure_threshold self));
      [lia | easy].
  - inversion Hfails as [|? ? Hfunc Hrest]; subst.
    destruct (call_fails_closed self func w Hfunc Hclosed) as (e & w' & Hcall).
    subst self'. cbn [Recovery.calls]. rewrite Hcall.
    cbn [List.length] in Hle. rewrite Nat2Z.inj_succ in Hle.
    destruct funcs as [|func' funcs].
    + simpl. repeat split; lia.
    + cbn [List.length] in Hle. rewrite Nat2Z.inj_succ in Hle.
      match goal with
      | |- context [calls ?b _ ?w1] =>
          destruct (IH b w1 Hrest) as (Ht & Hto & Hc & Hs)
      end.
      * simpl. destruct (Z.geb_spec (Recovery.failure_count self + 1)
                           (Recovery.failure_threshold self)); [lia | reflexivity].
      * cbn [Recovery.failure_count Recovery.failure_threshold List.length].
        rewrite Nat2Z.inj_succ. lia.
      * simpl. lia.
      * cbn [Recovery.failure_count Recovery.failure_threshold Recovery.timeout]
          in Ht, Hto, Hc, Hs.
        rewrite Ht, Hto, Hs, Hc. cbn [List.length]. rewrite !Nat2Z.inj_succ.
        repeat split; lia.
Qed.

(** What holds of a breaker between two calls. *)
Lemma reachable_invariant (self : CircuitBreaker) :
  reachable self ->
  Recovery.cb_state self <> Recovery.half_open /\
  (Recovery.cb_state self = Recovery.open ->
   Recovery.failure_threshold self <= Recovery.failure_count self /\
   Recovery.last_failure_time self <> None).
Proof.
  induction 1 as [threshold timeout | A self func w Hreach [Hhalf Hopen] | self _ _].
  - simpl. split; [discriminate | discriminate].
  - unfold Recovery.call.
    destruct (let_through self w) as [[self1|] w1] eqn:Hgate; [|simpl; tauto].
    apply let_through_some in Hgate.
    destruct (func w1) as [[result|e] w2].
    + subst self1. simpl. destruct (Recovery.cb_state self); simpl; split; discriminate.
    + destruct (time_time w2) as [now w3]. subst self1. cbn [fst snd].
      cbn [Recovery.set_state Recovery.failure_count Recovery.failure_threshold
           Recovery.timeout Recovery.last_failure_time Recovery.cb_state].
      destruct (Z.geb_spec (Recovery.failure_count self + 1) (Recovery.failure_threshold self))
        as [Hge|Hlt]; simpl.
      * split; [discriminate | intros _; split; [lia | discriminate]].
      * destruct (Recovery.cb_state self) eqn:Hs; try tauto.
        -- split; discriminate.
        -- destruct (Hopen eq_refl). lia.
  - simpl. split; discriminate.
Qed.

(** X5: an open breaker whose timeout has not passed fails fast: the call
    raises "Circuit breaker is OPEN - service unavailable" without running
    the protected function, and the breaker is left as it was (the refused
    call does not count as a failure); at most the clock has been read. *)
Theorem open_breaker_fails_fast {A} (self : CircuitBreaker) (func : W -> res A * W) (w : W) :
  Recovery.cb_state self = Recovery.open ->
  (forall last, Recovery.last_failure_time self = Some last ->
                time_truthy last = true ->
                expired (fst (time_time w)) last (Recovery.timeout self) = false) ->
  fst (call self func w) = (Raise Recovery.breaker_open, self) /\
  (snd (call self func w) = w \/ snd (call self func w) = snd (time_time w)).
Proof.
  intros Hopen Hfresh. unfold Recovery.call, Recovery.let_through. rewrite Hopen.
  destruct (Recovery.last_failure_time self) as [last|]; [|simpl; tauto].
  destruct (time_truthy last) eqn:Htruthy; [|simpl; tauto].
  specialize (Hfresh last eq_refl Htruthy).
  destruct (time_time w) as [now w1]. simpl in Hfresh. rewrite Hfresh. simpl. tauto.
Qed.

(** X6: a closed breaker whose failure count is zero (a new breaker, or
    any breaker after a call that returned) and whose threshold is positive
    stays closed while fewer calls than the threshold have failed in a
    row, counting them, and is open right after the call that brings the
    count to the threshold. *)
Theorem breaker_opens_at_threshold {A} (self : CircuitBreaker)
    (funcs : list (W -> res A * W)) (w : W) :
  Recovery.cb_state self = Recovery.closed ->
  Recovery.failure_count self = 0 ->
  0 < Recovery.failure_threshold self ->
  Forall Recovery.fails funcs ->
  Z.of_nat (List.length funcs) <= Recovery.failure_threshold self ->
  let self' := fst (calls self funcs w) in
  Recovery.failure_count self' = Z.of_nat (List.length funcs) /\
  Recovery.cb_state self'
  = if Z.of_nat (List.length funcs) =? Recovery.failure_threshold self
    then Recovery.open else Recovery.closed.
Proof.
  intros Hclosed Hzero Hpos Hfails Hle self'.
  assert (H := calls_fail_closed funcs self w Hfails Hclosed).
  cbv zeta in H. fold self' in H. rewrite Hzero in H. simpl in H.
  destruct (H Hle Hpos) as (_ & _ & Hcount & Hstate).
  split; [exact Hcount|]. rewrite Hstate, Hcount.
  destruct (Z.geb_spec (Z.of_nat (List.length funcs)) (Recovery.failure_threshold self)),
           (Z.eqb_spec (Z.of_nat (List.length funcs)) (Recovery.failure_threshold self));
    (reflexivity || lia).
Qed.

(** X7: whenever a call through a breaker returns, the breaker is closed
    afterwards and its failure count is zero, whatever its state was
    before; its threshold and timeout are kept. *)
Theorem returning_call_closes_breaker {A} (self self' : CircuitBreaker)
    (func : W -> res A * W) (w w' : W) (result : A) :
  call self func w = (Ok result, self', w') ->
  Recovery.cb_state self' = Recovery.closed /\
  Recovery.failure_count self' = 0 /\
  Recovery.failure_threshold self' = Recovery.failure_threshold self /\
  Recovery.timeout self' = Recovery.timeout self.
Proof.
  unfold Recovery.call.
  destruct (let_through self w) as [[self1|] w1] eqn:Hgate; [|discriminate].
  apply let_through_some in Hgate. subst self1.
  destruct (func w1) as [[result'|e] w2].
  - intros [= _ <- _]. destruct (Recovery.cb_state self); simpl; tauto.
  - destruct (time_time w2). discriminate.
Qed.

(** X8: between two calls a breaker is never half-open: the half-open
    state only lasts for the trial call.  An open breaker has counted at
    least as many failures as its threshold and has a last failure
    time. *)
Theorem breaker_is_closed_or_open (self : CircuitBreaker) :
  reachable self ->
  (Recovery.cb_state self = Recovery.closed \/ Recovery.cb_state self = Recovery.open) /\
  (Recovery.cb_state self = Recovery.open ->
   Recovery.failure_threshold self <= Recovery.failure_count self /\
   exists last, Recovery.last_failure_time self = Some last).
Proof.
  intros Hreach. destruct (reachable_invariant self Hreach) as [Hhalf Hopen]. split.
  - destruct (Recovery.cb_state self); tauto.
  - intros Hs. destruct (Hopen Hs) as [Hle Hlast]. split; [exact Hle|].
    destruct (Recovery.last_failure_time self) as [last|]; [now exists last | tauto].
Qed.

(** X9: once the timeout has passed, an open breaker lets one trial call
    through.  If the protected function returns, the breaker is closed
    with a failure count of zero; if it raises, the breaker is open again
    at once, whatever the threshold, and the timeout starts again from the
    time of this failure. *)
Theorem trial_call_after_timeout {A} (self : CircuitBreaker) (func : W -> res A * W)
    (w : W) (last : time) :
  reachable self ->
  Recovery.cb_state self = Recovery.open ->
  Recovery.last_failure_time self = Some last ->
  time_truthy last = true ->
  expired (fst (time_time w)) last (Recovery.timeout self) = true ->
  call self func w
  = match func (snd (time_time w)) with
    | (Ok result, w') =>
        (Ok result,
         {| Recovery.failure_threshold := Recovery.failure_threshold self;
            Recovery.timeout := Recovery.timeout self;
            Recovery.failure_count := 0;
            Recovery.last_failure_time := Some last;
            Recovery.cb_state := Recovery.closed |},
         w')
    | (Raise e, w') =>
        (Raise e,
         {| Recovery.failure_threshold := Recovery.failure_threshold self;
            Recovery.timeout := Recovery.timeout self;
            Recovery.failure_count := Recovery.failure_count self + 1;
            Recovery.last_failure_time := Some (fst (time_time w'));
            Recovery.cb_state := Recovery.open |},
         snd (time_time w'))
    end.
Proof.
  intros Hreach Hopen Hlast Htruthy Hexpired.
  destruct (reachable_invariant self Hreach) as [_ Hcount].
  destruct (Hcount Hopen) as [Hle _].
  unfold Recovery.call, Recovery.let_through. rewrite Hopen, Hlast, Htruthy.
  destruct (time_time w) as [now w1]. simpl in Hexpired |- *. rewrite Hexpired.
  destruct (func w1) as [[result|e] w2]; simpl.
  - now rewrite Hlast.
  - destruct (time_time w2) as [now' w3]. simpl.
    destruct (Z.geb_spec (Recovery.failure_count self + 1) (Recovery.failure_threshold self));
      [reflexivity | lia].
Qed.

End BreakerProperties.

(** ** More on the step sequences *)

(** A key that has just been written is read back. *)
Lemma key_eqb_refl (k : scalar) : key_eqb k k = true.
Proof.
  destruct k as [|b|n|m e|s]; unfold key_eqb; simpl;
    rewrite ?Z.compare_refl, ?String.eqb_refl; reflexivity.
Qed.

Lemma dict_get_set_same (d : pydict) (k : scalar) (v : value) :
  dict_get (dict_set d k v) k = Some v.
Proof.
  induction d as [|[k' v'] d IH]; simpl.
  - now rewrite key_eqb_refl.
  - destruct (key_eqb k' k) eqn:E; simpl; rewrite E; [reflexivity | exact IH].
Qed.

Lemma bind_assoc {A B C} (m : M A) (f : A -> M B) (g : B -> M C) (s : state) :
  bind (bind m f) g s = bind m (fun a => bind (f a) g) s.
Proof.
  unfold bind. destruct (m s) as [[[a|e] s']|]; reflexivity.
Qed.

Section EdgeCases.

Variable py_eval : string -> pydict -> res value.
Variable py_eval_effect : string -> pydict -> pydict.
Variable orchestrate_skills : OrchestrateSkills.
Variable self : FlowRunner.

Local Abbreviation loop := (steps_loop py_eval py_eval_effect orchestrate_skills self).
Local Abbreviation run := (_execute_steps py_eval py_eval_effect orchestrate_skills self).

Lemma steps_loop_skill (rec : value -> M unit) (step : pydict)
    (rest : list value) (s : state) :
  py_eq_str (step_type step) "skill" = true ->
  loop rec (VDict step :: rest) s
  = bind (_execute_skill_step orchestrate_skills (VDict step)) (fun _ => loop rec rest) s.
Proof.
  intros H. unfold step_type in H. simpl.
  unfold bind at 1. unfold lift at 1. simpl py_get. cbv iota.
  unfold bind at 1. unfold lift at 1. cbv iota.
  now rewrite H.
Qed.

(** A sequence that starts with steps among which none is a
    [wait_for_event] step runs these steps and then the others. *)
Lemma steps_loop_app (rec : value -> M unit) (pre rest : list value) :
  Forall (fun step => is_wait step = false) pre ->
  forall s, loop rec (pre ++ rest)%list s = bind (loop rec pre) (fun _ => loop rec rest) s.
Proof.
  intros Hpre. induction Hpre as [|step pre Hstep _ IH]; intros s; [reflexivity|].
  destruct step as [k|l|step]; [reflexivity | reflexivity |].
  simpl in Hstep. simpl app.
  change (loop rec (VDict step :: pre ++ rest)%list s)
    with ((if py_eq_str (step_type step) "skill" then
             bind (_execute_skill_step orchestrate_skills (VDict step))
                  (fun _ => loop rec (pre ++ rest)%list)
           else if py_eq_str (step_type step) "script" then
             bind (_execute_script_step self (VDict step))
                  (fun _ => loop rec (pre ++ rest)%list)
           else if py_eq_str (step_type step) "switch" then
             bind (_execute_switch_step py_eval py_eval_effect rec (VDict step))
                  (fun _ => loop rec (pre ++ rest)%list)
           else if py_eq_str (step_type step) "wait_for_event" then
             results_append (record_paused (step_id step))
           else loop rec (pre ++ rest)%list) s).
  change (loop rec (VDict step :: pre))
    with (if py_eq_str (step_type step) "skill" then
            bind (_execute_skill_step orchestrate_skills (VDict step))
                 (fun _ => loop rec pre)
          else if py_eq_str (step_type step) "script" then
            bind (_execute_script_step self (VDict step))
                 (fun _ => loop rec pre)
          else if py_eq_str (step_type step) "switch" then
            bind (_execute_switch_step py_eval py_eval_effect rec (VDict step))
                 (fun _ => loop rec pre)
          else if py_eq_str (step_type step) "wait_for_event" then
            results_append (record_paused (step_id step))
          else loop rec pre).
  rewrite Hstep.
  destruct (py_eq_str (step_type step) "skill");
    [rewrite bind_assoc; apply bind_ext; intros [] s1; apply IH|].
  destruct (py_eq_str (step_type step) "script");
    [rewrite bind_assoc; apply bind_ext; intros [] s1; apply IH|].
  destruct (py_eq_str (step_type step) "switch");
    [rewrite bind_assoc; apply bind_ext; intros [] s1; apply IH|].
  apply IH.
Qed.

(** X10: the first [wait_for_event] step among the actions of the switch
    case that is taken ends these actions only.  The actions before it
    are run, its [paused] record is appended, the actions after it are
    not run, and the outer sequence goes on with the step that follows the
    switch: the flow is not paused.  (When an action before the wait step
    raises, the exception ends the run, as it does anywhere.) *)
Theorem nested_wait_does_not_pause_the_flow (fuel : nat) (step case wait : pydict)
    (before : list pydict) (after pre post rest : list value) (s : state)
    (context1 : pydict) :
  py_eq_str (step_type step) "switch" = true ->
  dict_get_default step "cases" (VList [])
  = VList (map VDict before ++ VDict case :: after)%list ->
  skips py_eval py_eval_effect before (context s) = Some context1 ->
  case_matches py_eval case context1 = true ->
  dict_get_default case "actions" (VList []) = VList (pre ++ VDict wait :: post)%list ->
  Forall (fun step => is_wait step = false) pre ->
  py_eq_str (step_type wait) "wait_for_event" = true ->
  run (S (S fuel)) (VList (VDict step :: rest)) s
  = bind (run (S fuel) (VList pre))
         (fun _ => bind (results_append (record_paused (step_id wait)))
                        (fun _ => run (S (S fuel)) (VList rest)))
         (mkState (case_effect py_eval_effect case context1) (results s)).
Proof.
  intros Hty Hcases Hbefore Hcase Hactions Hpre Hwait.
  rewrite (switch_step_match _ _ _ _ (S fuel) step rest s before case after context1)
    by assumption.
  rewrite Hactions.
  assert (Hinner : forall s1,
             run (S fuel) (VList (pre ++ VDict wait :: post)) s1
             = bind (run (S fuel) (VList pre))
                    (fun _ => results_append (record_paused (step_id wait))) s1).
  { intros s1. rewrite !execute_steps_list, steps_loop_app by exact Hpre.
    apply bind_ext. intros [] s2.
    rewrite steps_loop_wait by exact Hwait. reflexivity. }
  unfold bind at 1. rewrite Hinner.
  symmetry. rewrite <- bind_assoc. unfold bind at 1. reflexivity.
Qed.

(** X11: a skill step whose [input] is not a map aborts the flow, unlike
    a skill invocation that fails: resolving the input raises before the
    skill is invoked, no record is appended for the step, the steps after
    it are not run, and [execute_flow] reports [failed] with the message
    of the attribute error as its only result. *)
Theorem skill_step_with_malformed_input_aborts (fuel : nat) (step : pydict)
    (input : value) (post : list value) (s : state) :
  py_eq_str (step_type step) "skill" = true ->
  dict_get_default step "input" (VDict []) = input ->
  (forall template, input <> VDict template) ->
  let e := AttributeError ("'" ++ py_type_name input ++ "' object has no attribute 'items'") in
  run (S fuel) (VList (VDict step :: post)) s = Some (Raise e, s)
  /\ forall flow_name flow input_data,
       flows_get (flows self) flow_name = Some flow ->
       dict_get_default flow "steps" (VList []) = VList (VDict step :: post) ->
       execute_flow py_eval py_eval_effect orchestrate_skills self flow_name input_data
       = Some (outcome flow_name "failed"
                 (mkState input_data [VDict [(SStr "error", VStr (exc_msg e))]])).
Proof.
  intros Hty Hin Hmap e.
  assert (Hrun : forall n s', run (S n) (VList (VDict step :: post)) s' = Some (Raise e, s')).
  { intros n s'. rewrite execute_steps_list, steps_loop_skill by exact Hty.
    unfold _execute_skill_step. unfold_monad. simpl py_get. cbv iota. rewrite Hin.
    subst e. destruct input as [k|l|template]; [reflexivity | reflexivity |].
    now destruct (Hmap template). }
  split; [apply Hrun|].
  intros flow_name flow input_data Hflow Hsteps.
  unfold execute_flow. rewrite Hflow, Hsteps. unfold fuel_for. rewrite Hrun. reflexivity.
Qed.

(** X12: a switch case whose condition is not a string (a number, a
    boolean, a list, a map, or no condition at all) is never taken,
    whatever the context holds and whatever [eval] would do: the rewriting
    of the condition raises before [eval] is reached, and the evaluation
    gives [False]. *)
Theorem non_string_condition_never_matches (condition : value) (case context : pydict) :
  (forall text, condition <> VStr text) ->
  _evaluate_condition py_eval condition context = Ok (VBool false)
  /\ (dict_get_default case "condition" VNone = condition ->
      case_matches py_eval case context = false).
Proof.
  intros Hstr.
  assert (H : _evaluate_condition py_eval condition context = Ok (VBool false)).
  { unfold _evaluate_condition, rewrite_condition.
    destruct condition as [[| | | |text]|l|d]; try reflexivity.
    - now destruct (Hstr text).
    - cbn [py_contains_str rbind].
      destruct (existsb _ l); cbn [py_replace rbind py_contains_str];
        [reflexivity | destruct (existsb _ l); reflexivity].
    - cbn [py_contains_str rbind].
      destruct (dict_mem d _); cbn [py_replace rbind py_contains_str];
        [reflexivity | destruct (dict_mem d _); reflexivity]. }
  split; [exact H|].
  intros Hcond. unfold case_matches. rewrite Hcond, H.
  destruct condition as [[| | | |text]|l|d]; try reflexivity.
  now destruct (Hstr text).
Qed.

(** X13: while the skill invoker is not connected, a skill step never
    fails: the invoker answers with its mock map, which echoes the skill
    name and the resolved input, and the step stores this map under its
    output key and appends a [success] record carrying it. *)
Theorem mock_skill_step_succeeds (fuel : nat) (step template : pydict) (key : scalar)
    (rest : list value) (s : state) :
  is_connected orchestrate_skills = false ->
  py_eq_str (step_type step) "skill" = true ->
  dict_get_default step "input" (VDict []) = VDict template ->
  output_var (VDict step) = Ok (VS key) ->
  let resolved := map (fun kv => (fst kv, resolve_value (snd kv) (context s))) template in
  let mock := VDict [(SStr "skill", dict_get_default step "skill" VNone);
                     (SStr "status", VStr "mock_success");
                     (SStr "result", VDict resolved)] in
  run (S fuel) (VList (VDict step :: rest)) s
  = run (S fuel) (VList rest)
        (mkState (dict_set (context s) key mock)
                 (results s ++ [record_success (step_id step) mock])).
Proof.
  intros Hoff Hty Hin Hout resolved mock.
  rewrite !execute_steps_list, steps_loop_skill by exact Hty.
  unfold bind at 1.
  rewrite (execute_skill_step_dict _ step template key s Hin Hout).
  destruct (invoke_skill_not_connected orchestrate_skills
              (dict_get_default step "skill" VNone) (VDict resolved) Hoff) as [Hmock _].
  fold resolved. rewrite Hmock. reflexivity.
Qed.

(** X14: the handler [validate_invoice] and the condition
    ["validation.ok == true"] fit together: once the result of the handler
    is stored in the context under [validation], the condition evaluates
    to the boolean [ok] of that result, whatever else the context holds. *)
Theorem validation_condition_reflects_handler (context : pydict) (result : value) :
  Expr.extends_fragment py_eval ->
  _script_validate_invoice context = Ok result ->
  exists ok : bool,
    py_get result "ok" VNone = Ok (VBool ok)
    /\ _evaluate_condition py_eval (VStr "validation.ok == true")
         (dict_set context (SStr "validation") result)
       = Ok (VBool ok).
Proof.
  intros Hfragment Hresult.
  assert (Hcases : result = VDict [(SStr "ok", VBool true); (SStr "message", VStr "Valid")]
                   \/ result = VDict [(SStr "ok", VBool false);
                                      (SStr "message", VStr "Missing required fields")]).
  { unfold _script_validate_invoice, rbind in Hresult.
    destruct (py_get _ "total" _) as [total|]; [|discriminate].
    destruct (py_gt_zero total) as [[|]|]; try discriminate.
    - destruct (py_get _ "vendor" _) as [vendor|]; [|discriminate].
      destruct (py_truthy vendor); injection Hresult as <-; tauto.
    - injection Hresult as <-; tauto. }
  assert (Hval : forall ok message,
             result = VDict [(SStr "ok", VBool ok); (SStr "message", message)] ->
             get_val (dict_set context (SStr "validation") result) "validation.ok"
             = VBool ok).
  { intros ok message ->. unfold get_val.
    change (Str.split_on "." "validation.ok") with ["validation"; "ok"].
    cbn [get_val_loop]. unfold dict_get_default at 1.
    rewrite dict_get_set_same. reflexivity. }
  destruct Hcases as [H|H].
  - exists true. split; [rewrite H; reflexivity|].
    unfold _evaluate_condition, rewrite_condition.
    change (py_contains_str "risk.score" (VStr "validation.ok == true")) with (Ok false).
    change (py_contains_str "validation.ok" (VStr "validation.ok == true")) with (Ok true).
    cbv beta iota delta [rbind]. rewrite (Hval true _ H).
    match goal with
    | |- try_default (match ?r with Ok _ => _ | Raise _ => _ end) _ = _ =>
        let t := eval vm_compute in r in change r with t; cbv beta iota
    end.
    erewrite Hfragment by (vm_compute; reflexivity). reflexivity.
  - exists false. split; [rewrite H; reflexivity|].
    unfold _evaluate_condition, rewrite_condition.
    change (py_contains_str "risk.score" (VStr "validation.ok == true")) with (Ok false).
    change (py_contains_str "validation.ok" (VStr "validation.ok == true")) with (Ok true).
    cbv beta iota delta [rbind]. rewrite (Hval false _ H).
    match goal with
    | |- try_default (match ?r with Ok _ => _ | Raise _ => _ end) _ = _ =>
        let t := eval vm_compute in r in change r with t; cbv beta iota
    end.
    erewrite Hfragment by (vm_compute; reflexivity). reflexivity.
Qed.

End EdgeCases.

(** ** Configuration and connection *)

Lemma In_require (n : string) (value : option string) (name : string)
    (missing : list string) :
  In n (Configuration.require value name missing)
  <-> In n missing \/ (Configuration.truthy value = false /\ name = n).
Proof.
  unfold Configuration.require.
  destruct (Configuration.truthy value); simpl; rewrite ?in_app_iff; simpl;
    intuition congruence.
Qed.

Lemma endswith_append (s suffix : string) :
  Configuration.endswith (s ++ suffix) suffix = true.
Proof.
  induction s as [|c s IH].
  - destruct suffix; simpl; now rewrite ?Ascii.eqb_refl, ?String.eqb_refl.
  - cbn [append Configuration.endswith]. rewrite IH. apply orb_true_r.
Qed.

Lemma without_last_append (s : string) (c : ascii) :
  Configuration.without_last (s ++ String c EmptyString) = s.
Proof.
  induction s as [|a s IH]; [reflexivity|].
  cbn [append Configuration.without_last]. rewrite IH.
  destruct s; reflexivity.
Qed.

Lemma In_require_other (n : string) (value : option string) (name : string)
    (missing : list string) :
  name <> n ->
  In n (Configuration.require value name missing) <-> In n missing.
Proof. rewrite In_require. tauto. Qed.

Lemma In_require_same (n : string) (value : option string) (missing : list string) :
  In n (Configuration.require value n missing)
  <-> In n missing \/ Configuration.truthy value = false.
Proof. rewrite In_require. tauto. Qed.

(** The names that [validate] reports are looked for one block after the
    other, from the last one. *)
Ltac in_validate :=
  unfold Configuration.validate; cbv zeta;
  repeat first
    [ rewrite In_require_same
    | rewrite In_require_other by discriminate
    | match goal with
      | |- context [In _ (if ?b then _ else _)] => destruct b
      | |- context [In _ (_ ++ [_])%list] => rewrite in_app_iff; simpl In
      end ];
  simpl In; intuition discriminate.

Lemma validate_orchestrate_api_key (config : Configuration.Config) :
  In "ORCHESTRATE_API_KEY" (Configuration.validate config)
  <-> Configuration.ENABLE_ORCHESTRATE config = true
      /\ Configuration.truthy (Configuration.ORCHESTRATE_API_KEY config) = false.
Proof. in_validate. Qed.

Lemma validate_orchestrate_url (config : Configuration.Config) :
  In "ORCHESTRATE_URL" (Configuration.validate config)
  <-> Configuration.ENABLE_ORCHESTRATE config = true
      /\ Configuration.truthy (Configuration.ORCHESTRATE_URL config) = false.
Proof. in_validate. Qed.

Lemma validate_orchestrate_project_id (config : Configuration.Config) :
  In "ORCHESTRATE_PROJECT_ID" (Configuration.validate config)
  <-> Configuration.ENABLE_ORCHESTRATE config = true
      /\ Configuration.truthy (Configuration.ORCHESTRATE_PROJECT_ID config) = false.
Proof. in_validate. Qed.

(** X15: [connect] and [Config.validate] agree on the Orchestrate
    settings: the connection is made exactly when Orchestrate is enabled
    and [validate] reports none of its three credentials as missing.  In
    particular a configuration that validates with nothing missing always
    connects when Orchestrate is enabled.  A refused connection leaves the
    object as it was, and a connection that is made marks it connected. *)
Theorem connect_agrees_with_validate (config : Configuration.Config)
    (self : Configuration.connection) :
  (fst (Configuration.connect config self) = true
   <-> Configuration.ENABLE_ORCHESTRATE config = true
       /\ ~ In "ORCHESTRATE_API_KEY" (Configuration.validate config)
       /\ ~ In "ORCHESTRATE_URL" (Configuration.validate config)
       /\ ~ In "ORCHESTRATE_PROJECT_ID" (Configuration.validate config))
  /\ (fst (Configuration.connect config self) = false ->
      snd (Configuration.connect config self) = self)
  /\ (fst (Configuration.connect config self) = true ->
      Configuration._initialized (snd (Configuration.connect config self)) = true).
Proof.
  split; [|split].
  - rewrite validate_orchestrate_api_key, validate_orchestrate_url,
      validate_orchestrate_project_id.
    unfold Configuration.connect.
    destruct (Configuration.ENABLE_ORCHESTRATE config),
      (Configuration.truthy (Configuration.ORCHESTRATE_API_KEY config)),
      (Configuration.truthy (Configuration.ORCHESTRATE_URL config)),
      (Configuration.truthy (Configuration.ORCHESTRATE_PROJECT_ID config));
      simpl; intuition discriminate.
  - unfold Configuration.connect.
    destruct (negb _); [reflexivity|]. destruct (_ || _); [reflexivity | discriminate].
  - unfold Configuration.connect.
    destruct (negb _); [discriminate|]. destruct (_ || _); [discriminate | reflexivity].
Qed.

(** X16: one trailing slash of the configured URL is dropped: a URL
    [u] that does not end with a slash and the URL [u/] give the same
    connection, whose base URL is [u], so that the endpoints built from it
    have no doubled slash. *)
Theorem connect_drops_one_trailing_slash (config : Configuration.Config)
    (self : Configuration.connection) (u : string) :
  u <> "" ->
  Configuration.endswith u "/" = false ->
  Configuration.connect (Configuration.with_url config (Some (u ++ "/"))) self
  = Configuration.connect (Configuration.with_url config (Some u)) self
  /\ (fst (Configuration.connect (Configuration.with_url config (Some u)) self) = true ->
      Configuration.url
        (snd (Configuration.connect (Configuration.with_url config (Some (u ++ "/"))) self))
      = Some u).
Proof.
  intros Hne Hslash.
  assert (Htruthy : Configuration.truthy (Some (u ++ "/")) = Configuration.truthy (Some u))
    by (destruct u; [congruence | reflexivity]).
  assert (Hsame : Configuration.connect (Configuration.with_url config (Some (u ++ "/"))) self
                  = Configuration.connect (Configuration.with_url config (Some u)) self).
  { unfold Configuration.connect, Configuration.with_url.
    cbn [Configuration.ENABLE_ORCHESTRATE Configuration.ORCHESTRATE_API_KEY
         Configuration.ORCHESTRATE_URL Configuration.ORCHESTRATE_PROJECT_ID].
    rewrite endswith_append, without_last_append, Hslash, Htruthy. reflexivity. }
  split; [exact Hsame|].
  rewrite Hsame. unfold Configuration.connect, Configuration.with_url.
  cbn [Configuration.ENABLE_ORCHESTRATE Configuration.ORCHESTRATE_API_KEY
       Configuration.ORCHESTRATE_URL Configuration.ORCHESTRATE_PROJECT_ID].
  rewrite Hslash.
  destruct (negb _); [discriminate|]. destruct (_ || _); [discriminate | reflexivity].
Qed.

(** ** Templates without a defined placeholder *)

(** Replacing a text that does not occur changes nothing. *)
Lemma replace_absent (old new s : string) :
  old <> "" -> Str.contains old s = false -> Str.replace old new s = s.
Proof.
  intros Hold. destruct old as [|a old]; [congruence|]. unfold Str.replace.
  induction s as [|c s IH]; intros H; [reflexivity|].
  rewrite contains_cons in H. cbn [Str.replace_scan].
  destruct (prefix (String a old) (String c s)); [discriminate H|].
  now rewrite IH.
Qed.

Lemma fold_replace_absent (l : list (string * string)) (s : string) :
  (forall p, In p l -> Str.contains ("{{" ++ fst p ++ "}}") s = false) ->
  fold_left replace_placeholder l s = s.
Proof.
  induction l as [|p l IH]; intros H; [reflexivity|].
  simpl fold_left. unfold replace_placeholder at 2.
  rewrite replace_absent; [apply IH | discriminate | apply H; now left].
  intros q Hq. apply H. now right.
Qed.

(** X17: [_resolve_variables] returns the template as it is when none of
    the placeholders that the context defines occurs in its string values:
    a placeholder that names nothing in the context is not an error and is
    not blanked, it stays in the text as [{{name}}], whatever else the
    text and the context contain. *)
Theorem undefined_placeholders_are_kept (template context : pydict) :
  (forall k s p, In (k, VStr s) template -> In p (placeholders context) ->
     Str.contains ("{{" ++ fst p ++ "}}") s = false) ->
  _resolve_variables (VDict template) context = Ok template.
Proof.
  intros H. unfold _resolve_variables. f_equal.
  induction template as [|[k v] template IH]; [reflexivity|].
  cbn [map fst snd]. rewrite IH by (intros k' s p Hin; apply (H k' s p); now right).
  f_equal. f_equal.
  destruct v as [[| | | |s]|l|d]; try reflexivity.
  unfold resolve_value. destruct (_ && _); [|reflexivity].
  rewrite resolve_fold_placeholders, fold_replace_absent; [reflexivity|].
  intros p Hp. apply (H k s p); [now left | exact Hp].
Qed.

(** * Instances *)

Module Instances.

Import Tests.

Lemma unrecognized_step_is_skipped_witness :
  unrecognized email_step
  /\ _execute_steps Expr.eval_restricted Expr.no_effect no_skills runner 1
       (VList ([VDict script_step] ++ VDict email_step :: [VDict wait_step])) s0
     = _execute_steps Expr.eval_restricted Expr.no_effect no_skills runner 1
         (VList ([VDict script_step] ++ [VDict wait_step])) s0.
Proof.
  assert (H : unrecognized email_step) by (repeat split; reflexivity).
  split; [exact H|].
  apply (unrecognized_step_is_skipped Expr.eval_restricted Expr.no_effect no_skills runner 0
           [VDict script_step] [VDict wait_step] email_step s0 H).
Defined.


Lemma unknown_flow_fails_witness :
  flows_get (flows runner) "NoSuchFlow" = None
  /\ exists out,
       execute_flow Expr.eval_restricted Expr.no_effect no_skills runner "NoSuchFlow" input_data
       = Some out
       /\ field out "status" = Some (VStr "failed").
Proof.
  split; [reflexivity|].
  destruct (unknown_flow_fails Expr.eval_restricted Expr.no_effect no_skills runner
              "NoSuchFlow" input_data eq_refl) as (out & H1 & _ & H3 & _).
  exists out. split; assumption.
Defined.

Lemma zero_score_replaced_by_default_witness :
  Expr.extends_fragment Expr.eval_restricted
  /\ _evaluate_condition Expr.eval_restricted (VStr "risk.score < 0.3") zero_risk
     = Ok (VBool false).
Proof.
  split; [exact eval_restricted_extends|].
  apply (zero_score_replaced_by_default Expr.eval_restricted eval_restricted_extends).
Defined.

Lemma condition_value_not_boolean_witness :
  Expr.extends_fragment Expr.eval_restricted
  /\ _evaluate_condition Expr.eval_restricted (VStr "risk.score") low_risk_valid
     = Ok (VFloat 1 1).
Proof.
  split; [exact eval_restricted_extends|].
  apply (condition_value_not_boolean Expr.eval_restricted eval_restricted_extends).
Defined.



Lemma switch_first_match_wins_witness :
  py_eq_str (step_type switch_step) "switch" = true
  /\ dict_get_default switch_step "cases" (VList [])
     = VList [VDict false_case; VDict else_case]
  /\ case_matches Expr.eval_restricted false_case (context s0) = false
  /\ case_matches Expr.eval_restricted else_case (context s0) = true
  /\ _execute_steps Expr.eval_restricted Expr.no_effect no_skills runner 2
       (VList [VDict switch_step]) s0
     = _execute_steps Expr.eval_restricted Expr.no_effect no_skills runner 1
         (VList [VDict script_step]) s0.
Proof.
  split; [reflexivity|]. split; [reflexivity|].
  split; [reflexivity|]. split; [reflexivity|].
  exact (proj1 (proj2 (proj2 (switch_first_match_wins Expr.eval_restricted
                                Expr.no_effect no_skills runner 1
                                switch_step [VDict false_case; VDict else_case] [] s0
                                eq_refl eq_refl))
                  (fun text context => eq_refl))
           [false_case] else_case [] eq_refl
           (Forall_cons false_case eq_refl (Forall_nil _)) eq_refl).
Defined.


Lemma plain_for_greeting (segs : list segment) :
  plain_template segs -> plain_context segs greeting_context.
Proof.
  intros _. repeat constructor.
Qed.

(** The example of the spec, which is the test [test_resolve_variables]. *)
Lemma resolve_variables_on_plain_templates_witness :
  _resolve_variables (VDict greeting_template) greeting_context
  = Ok [(SStr "greeting", VStr "Hello World"); (SStr "ref", VStr "ID: 123")].
Proof.
  destruct (resolve_variables_on_plain_templates greeting_template greeting_context)
    as (resolved & -> & H).
  inversion H as [|kv1 r1 t1 rs1 (K1 & _ & V1) H1]; subst.
  inversion H1 as [|kv2 r2 t2 rs2 (K2 & _ & V2) H2]; subst.
  inversion H2; subst.
  destruct r1 as [k1 v1], r2 as [k2 v2]. simpl in *. subst.
  rewrite (V1 [Text "Hello "; Hole "name"] eq_refl)
    by (try apply plain_for_greeting; repeat constructor).
  rewrite (V2 [Text "ID: "; Hole "data.id"] eq_refl)
    by (try apply plain_for_greeting; repeat constructor).
  reflexivity.
Defined.

End Instances.

Module MoreInstances.

Import Tests Samples.

Lemma retry_returns_first_success_witness :
  Recovery.retry mul time_sleep 3 1%Z 2%Z "fetch" flaky
  = {| Recovery.retry_result := Ok 7%Z;
       Recovery.retry_calls := 3;
       Recovery.retry_sleeps := [1%Z; 2%Z] |}.
Proof.
  apply (retry_returns_first_success mul time_sleep flaky "fetch" 3 2%Z 1%Z 2%nat 7%Z).
  - simpl. lia.
  - intros [|[|k]] Hk; [eexists; reflexivity | eexists; reflexivity | lia].
  - repeat constructor.
  - reflexivity.
Defined.

Lemma retry_reraises_last_failure_witness :
  Recovery.retry mul time_sleep 3 1%Z 2%Z "fetch" down
  = {| Recovery.retry_result := Raise (PyExc "ConnectionError" "third failure");
       Recovery.retry_calls := 3;
       Recovery.retry_sleeps := [1%Z; 2%Z] |}.
Proof.
  apply (retry_reraises_last_failure mul time_sleep down "fetch" 3 2%Z 1%Z
           (PyExc "ConnectionError" "third failure")).
  - reflexivity.
  - intros k _. eexists. reflexivity.
  - repeat constructor.
  - reflexivity.
Defined.

Lemma invoke_skill_is_never_retried_witness :
  Recovery.retry_result
    (Recovery.retried_invoke_skill mul time_sleep 1%Z 2%Z recovering
       (VStr "extract_invoice") (VDict input_data))
  = Ok VNone
  /\ invoke_skill (recovering 1) (VStr "extract_invoice") (VDict input_data)
     = VDict input_data.
Proof.
  split; [|reflexivity].
  exact (f_equal Recovery.retry_result
           (proj2 (invoke_skill_is_never_retried mul time_sleep 1%Z 2%Z recovering
                     (VStr "extract_invoice") (VDict input_data)))).
Defined.

Lemma open_breaker_fails_fast_witness :
  Recovery.cb_state tripped = Recovery.open
  /\ fst (Recovery.call time_time time_truthy expired tripped working 120%Z)
     = (Raise Recovery.breaker_open, tripped).
Proof.
  split; [reflexivity|].
  refine (proj1 (open_breaker_fails_fast time_time time_truthy expired
                   tripped working 120%Z eq_refl _)).
  intros last [= <-] _. reflexivity.
Defined.

Lemma breaker_opens_at_threshold_witness :
  let self := fst (Recovery.calls time_time time_truthy expired
                     (Recovery.new_breaker Z 2 60) [failing; failing] 100%Z) in
  Recovery.failure_count self = 2%Z /\ Recovery.cb_state self = Recovery.open.
Proof.
  refine (breaker_opens_at_threshold time_time time_truthy expired
            (Recovery.new_breaker Z 2 60) [failing; failing] 100%Z
            eq_refl eq_refl eq_refl _ _).
  - repeat constructor; intros w; eexists _, _; reflexivity.
  - discriminate.
Defined.

Lemma returning_call_closes_breaker_witness :
  fst (fst (Recovery.call time_time time_truthy expired tripped working 200%Z)) = Ok tt
  /\ Recovery.cb_state
       (snd (fst (Recovery.call time_time time_truthy expired tripped working 200%Z)))
     = Recovery.closed.
Proof.
  split; [reflexivity|].
  exact (proj1 (returning_call_closes_breaker time_time time_truthy expired
                  tripped _ working 200%Z _ tt eq_refl)).
Defined.

Lemma breaker_is_closed_or_open_witness :
  Recovery.reachable time_time time_truthy expired tripped
  /\ (Recovery.failure_threshold tripped <= Recovery.failure_count tripped)%Z.
Proof.
  assert (H : Recovery.reachable time_time time_truthy expired tripped)
    by (apply Recovery.reachable_call, Recovery.reachable_new).
  split; [exact H|].
  exact (proj1 (proj2 (breaker_is_closed_or_open time_time time_truthy expired tripped H)
                  eq_refl)).
Defined.

Lemma trial_call_after_timeout_witness :
  Recovery.call time_time time_truthy expired tripped failing 200%Z
  = (Raise (PyExc "ConnectionError" "service down"),
     {| Recovery.failure_threshold := 1;
        Recovery.timeout := 60;
        Recovery.failure_count := 2;
        Recovery.last_failure_time := Some 211%Z;
        Recovery.cb_state := Recovery.open |},
     212%Z).
Proof.
  apply (trial_call_after_timeout time_time time_truthy expired tripped failing
           200%Z 110%Z).
  - apply Recovery.reachable_call, Recovery.reachable_new.
  - reflexivity.
  - reflexivity.
  - reflexivity.
  - reflexivity.
Defined.

Lemma nested_wait_does_not_pause_the_flow_witness :
  case_matches Expr.eval_restricted waiting_case (context s0) = true
  /\ dict_get_default waiting_case "actions" (VList [])
     = VList ([VDict email_step] ++ VDict wait_step :: [VDict script_step])
  /\ _execute_steps Expr.eval_restricted Expr.no_effect no_skills runner 2
       (VList [VDict waiting_switch; VDict script_step]) s0
     = _execute_steps Expr.eval_restricted Expr.no_effect no_skills runner 2
         (VList [VDict script_step])
         (mkState (context s0) (results s0 ++ [record_paused (step_id wait_step)])).
Proof.
  split; [reflexivity|]. split; [reflexivity|].
  refine (eq_trans
            (nested_wait_does_not_pause_the_flow Expr.eval_restricted Expr.no_effect
               no_skills runner 0 waiting_switch waiting_case wait_step [] []
               [VDict email_step] [VDict script_step] [VDict script_step] s0 (context s0)
               eq_refl eq_refl eq_refl eq_refl eq_refl _ eq_refl)
            eq_refl).
  repeat constructor.
Defined.

Lemma skill_step_with_malformed_input_aborts_witness :
  dict_get_default malformed_skill_step "input" (VDict []) = VStr "{{invoice.total}}"
  /\ _execute_steps Expr.eval_restricted Expr.no_effect no_skills runner 1
       (VList [VDict malformed_skill_step; VDict script_step]) s0
     = Some (Raise (AttributeError "'str' object has no attribute 'items'"), s0).
Proof.
  split; [reflexivity|].
  refine (proj1 (skill_step_with_malformed_input_aborts Expr.eval_restricted Expr.no_effect no_skills
                   runner 0 malformed_skill_step (VStr "{{invoice.total}}")
                   [VDict script_step] s0 eq_refl eq_refl _)).
  intros template. discriminate.
Defined.

Lemma non_string_condition_never_matches_witness :
  dict_get_default numeric_case "condition" VNone = VInt 1
  /\ case_matches Expr.eval_restricted numeric_case input_data = false.
Proof.
  split; [reflexivity|].
  refine (proj2 (non_string_condition_never_matches Expr.eval_restricted (VInt 1)
                   numeric_case input_data _) eq_refl).
  intros text. discriminate.
Defined.

Lemma mock_skill_step_succeeds_witness :
  is_connected no_skills = false
  /\ let mock := VDict [(SStr "skill", VStr "extract_invoice");
                        (SStr "status", VStr "mock_success");
                        (SStr "result", VDict [(SStr "total", VStr "100")])] in
     _execute_steps Expr.eval_restricted Expr.no_effect no_skills runner 1
       (VList [VDict skill_step]) s0
     = Some (Ok tt,
             mkState (input_data ++ [(SStr "extract", mock)])%list
                     [record_success (VStr "extract") mock]).
Proof.
  split; [reflexivity|].
  exact (mock_skill_step_succeeds Expr.eval_restricted Expr.no_effect no_skills runner 0
           skill_step [(SStr "total", VStr "{{invoice.total}}")]
           (SStr "extract") [] s0 eq_refl eq_refl eq_refl eq_refl).
Defined.

Lemma validation_condition_reflects_handler_witness :
  _script_validate_invoice input_data
  = Ok (VDict [(SStr "ok", VBool true); (SStr "message", VStr "Valid")])
  /\ exists ok : bool,
       py_get (VDict [(SStr "ok", VBool true); (SStr "message", VStr "Valid")]) "ok" VNone
       = Ok (VBool ok)
       /\ _evaluate_condition Expr.eval_restricted (VStr "validation.ok == true")
            (dict_set input_data (SStr "validation")
               (VDict [(SStr "ok", VBool true); (SStr "message", VStr "Valid")]))
          = Ok (VBool ok).
Proof.
  split; [reflexivity|].
  exact (validation_condition_reflects_handler Expr.eval_restricted input_data _
           eval_restricted_extends eq_refl).
Defined.

Lemma connect_drops_one_trailing_slash_witness :
  Configuration.connect
    (Configuration.with_url mock_config (Some "https://api.orchestrate.ibm.com/"))
    Configuration.new_connection
  = (true,
     {| Configuration.api_key := Some "test-key";
        Configuration.url := Some "https://api.orchestrate.ibm.com";
        Configuration.project_id := Some "proj-123";
        Configuration._initialized := true |}).
Proof.
  refine (eq_trans
            (proj1 (connect_drops_one_trailing_slash mock_config
                      Configuration.new_connection "https://api.orchestrate.ibm.com" _ _))
            eq_refl).
  - discriminate.
  - reflexivity.
Defined.

Lemma undefined_placeholders_are_kept_witness :
  _resolve_variables (VDict unknown_template) greeting_context = Ok unknown_template.
Proof.
  apply undefined_placeholders_are_kept.
  intros k s p [H|[H|[]]] Hp; [|discriminate H].
  injection H as _ <-.
  destruct Hp as [<-|[<-|[]]]; reflexivity.
Defined.

End MoreInstances.
